(** * FinOps: Trusted Advisor automation front end and remediation engine

    A shallow embedding of the Vue front end of the FinOps application
    ([services/api.js], [App.vue], [RecommendationCard.vue],
    [RecommendationList.vue]) together with a model of the remediation
    engine the front end talks to.

    JavaScript values are embedded as a small tagged union with the
    language's truthiness, [||], member access and optional chaining
    written out.  A number that the program only tests and hands on is
    embedded as an exact rational, JSON carrying no NaN; the estimated
    savings, which the program adds up, are binary64 floats with the
    IEEE addition of the language. *)

From Stdlib Require Import QArith Qcanon PrimFloat.
From stdpp Require Import base numbers strings list gmap fin_maps.

Local Open Scope string_scope.

(** ** JavaScript values *)

Module JS.

#[warnings="-register-all"]
Inductive jsval : Type :=
| JUndefined
| JNull
| JBool (b : bool)
| JNum (q : Qc)
| JStr (s : string)
| JObj (fields : list (string * jsval)).

(** ToBoolean: [undefined], [null], [false], [0] and [''] are falsy,
    every object is truthy. *)
Definition truthy (v : jsval) : bool :=
  match v with
  | JUndefined | JNull => false
  | JBool b => b
  | JNum q => negb (bool_decide (q = 0%Qc))
  | JStr s => negb (bool_decide (s = ""))
  | JObj _ => true
  end.

(** [a || b] yields [a] itself when it is truthy, never a coerced boolean. *)
Definition js_or (a b : jsval) : jsval := if truthy a then a else b.

Definition nullish (v : jsval) : bool :=
  match v with
  | JUndefined | JNull => true
  | _ => false
  end.

Definition is_boolean (v : jsval) : bool :=
  match v with
  | JBool _ => true
  | _ => false
  end.

Definition is_string (v : jsval) : bool :=
  match v with
  | JStr _ => true
  | _ => false
  end.

Fixpoint assoc (k : string) (fields : list (string * jsval)) : jsval :=
  match fields with
  | [] => JUndefined
  | (k', v) :: rest => if bool_decide (k' = k) then v else assoc k rest
  end.

(** Property read on a value that is neither [undefined] nor [null]:
    an absent property reads as [undefined]; primitives have none of
    the properties this program reads. *)
Definition get_prop (v : jsval) (k : string) : jsval :=
  match v with
  | JObj fields => assoc k fields
  | _ => JUndefined
  end.

(** [v.k]: a TypeError ([None]) on [undefined] and [null]. *)
Definition member (v : jsval) (k : string) : option jsval :=
  if nullish v then None else Some (get_prop v k).

(** [v?.k]: short-circuits to [undefined] on [undefined] and [null]. *)
Definition opt_member (v : jsval) (k : string) : jsval :=
  if nullish v then JUndefined else get_prop v k.

(** The settlement of an awaited promise. *)
Inductive settled : Type :=
| Resolved (data : jsval)
| Rejected (error : jsval).

End JS.

Import JS.

(** ** services/api.js *)

Module Api.

Record request : Type := mkRequest {
  method : string;
  url : string;
  body : jsval
}.

(** [implementRecommendation(checkId, options = {})]: the default
    parameter replaces an omitted ([undefined]) argument only; reading
    a property of [null] throws. *)
Definition implementRecommendation (checkId : string) (options : jsval)
  : option request :=
  let options := match options with JUndefined => JObj [] | o => o end in
  dryRun ← member options "dryRun";
  force ← member options "force";
  Some (mkRequest "POST" ("/implement/" +:+ checkId)
          (JObj [("dry_run", js_or dryRun (JBool false));
                 ("force", js_or force (JBool false))])).

Definition executeAutomation (automationId : string) (options : jsval)
  : option request :=
  let options := match options with JUndefined => JObj [] | o => o end in
  dryRun ← member options "dryRun";
  force ← member options "force";
  Some (mkRequest "POST" ("/automations/" +:+ automationId +:+ "/execute")
          (JObj [("dry_run", js_or dryRun (JBool false));
                 ("force", js_or force (JBool false))])).

End Api.

(** ** App.vue: the health indicator *)

Module App.

Record state : Type := mkState {
  healthStatus : jsval;
  awsConnection : jsval;
  healthLoading : bool;
  lastHealthCheck : string;
  showHealthModal : bool
}.

(** The refs as [setup()] creates them. *)
Definition initial : state :=
  mkState (JStr "unknown") (JBool false) false "Never" false.

(** [switch] compares with [===]: only the two string literals match. *)
Definition healthStatusClass (st : state) : string :=
  match healthStatus st with
  | JStr "healthy" => "bg-green-500"
  | JStr "unhealthy" => "bg-red-500"
  | _ => "bg-yellow-500"
  end.

Definition healthStatusText (st : state) : string :=
  match healthStatus st with
  | JStr "healthy" => "Healthy"
  | JStr "unhealthy" => "Unhealthy"
  | _ => "Unknown"
  end.

Definition awsConnectionClass (st : state) : string :=
  if truthy (awsConnection st) then "text-green-600" else "text-red-600".

Definition awsConnectionText (st : state) : string :=
  if truthy (awsConnection st) then "Connected" else "Disconnected".

Section CheckHealth.

(** [new Date(v).toLocaleString()], locale dependent, and the clock
    read by [new Date()]. *)
Variable toLocaleString : jsval -> string.
Variable now : jsval.

Definition healthFailed (st : state) : state :=
  mkState (JStr "unhealthy") (JBool false) false (toLocaleString now)
          (showHealthModal st).

(** [checkHealth]: [health] is what [apiService.healthCheck()] settles
    to, the [data] of the response of [GET /health].  A TypeError in the
    [try] block is raised by its first statement, before any ref is
    assigned, and lands in the same [catch] as a rejected request. *)
Definition checkHealth (st : state) (health : settled) : state :=
  match health with
  | Resolved h =>
      match member h "status", member h "aws_connection", member h "timestamp" with
      | Some s, Some a, Some t =>
          mkState s a false (toLocaleString t) (showHealthModal st)
      | _, _, _ => healthFailed st
      end
  | Rejected _ => healthFailed st
  end.

End CheckHealth.

End App.

(** ** components/RecommendationCard.vue *)

Module Card.

Record state : Type := mkState {
  implementing : bool;
  implementationResult : jsval
}.

Definition initial : state := mkState false JNull.

(** Payload of the [implementation-completed] event. *)
Record completed : Type := mkCompleted {
  checkId : string;
  success : jsval;
  savings : jsval
}.

(** What one call of [implementRecommendation] leaves behind: the refs
    of the card, the request handed to axios, the event emitted to the
    parent, and whether an exception escaped the [catch] block. *)
Record effect : Type := mkEffect {
  card : state;
  sent : option Api.request;
  emitted : option completed;
  uncaught : bool
}.

(** The [catch] block.  [error.response] is a plain member access and
    throws on [undefined] and [null]; the exception then leaves the
    function with [implementationResult] as the [try] block left it. *)
Definition handleError (error : jsval) (current : jsval)
  : jsval * bool :=
  match member error "response" with
  | None => (current, true)
  | Some response =>
      let detail := opt_member (opt_member response "data") "detail" in
      (JObj [("success", JBool false);
             ("message", js_or detail (JStr "Implementation failed"))],
       false)
  end.

(** The exception raised by reading a property of [undefined] or [null]. *)
Definition typeError : jsval :=
  JObj [("name", JStr "TypeError")].

(** [implementRecommendation(dryRun)] for the card of recommendation
    [check_id]; [reply] is what the POST settles to.  The [finally]
    block resets [implementing] on every path. *)
Definition implementRecommendation (check_id : string) (dryRun : bool)
    (reply : settled) (st : state) : effect :=
  let req := Api.implementRecommendation check_id
               (JObj [("dryRun", JBool dryRun)]) in
  match reply with
  | Resolved result =>
      match member result "success", member result "savings" with
      | Some ok, Some saved =>
          mkEffect (mkState false result) req
                   (Some (mkCompleted check_id ok saved)) false
      | _, _ =>
          let '(shown, thrown) := handleError typeError result in
          mkEffect (mkState false shown) req None thrown
      end
  | Rejected error =>
      let '(shown, thrown) := handleError error JNull in
      mkEffect (mkState false shown) req None thrown
  end.

Definition handleImplement (check_id : string) :=
  implementRecommendation check_id false.

Definition handleDryRun (check_id : string) :=
  implementRecommendation check_id true.

(** The two buttons carry [:disabled="implementing"]: a disabled button
    dispatches no click, so no handler runs while a call is pending. *)
Definition clickable (st : state) : bool := negb (implementing st).

(** The refs between the click and the settlement of the request. *)
Definition pending : state := mkState true JNull.

(** The computed [resultClasses]: no result box for a falsy result, a
    green one when its [success] is truthy, a red one otherwise. *)
Definition resultClasses (st : state) : string :=
  if negb (truthy (implementationResult st)) then ""
  else if truthy (get_prop (implementationResult st) "success")
       then "bg-green-50 border border-green-200"
       else "bg-red-50 border border-red-200".

End Card.

(** ** components/RecommendationList.vue *)

Module RecList.

(** A recommendation as [GET /recommendations] delivers it.
    [estimated_savings] is a number of the language, a binary64 float,
    [None] when the property is absent or [null]. *)
Record recommendation : Type := mkRecommendation {
  check_id : string;
  category : string;
  title : string;
  description : string;
  status : string;
  estimated_savings : option float;
  can_implement : bool;
  affected_resources : list string;
  last_updated : string
}.

Record summary : Type := mkSummary {
  checkId : string;
  message : string;
  savings : jsval
}.

Record state : Type := mkState {
  recommendations : list recommendation;
  loading : bool;
  error : jsval;
  statusFilter : string;
  categoryFilter : string;
  implementationFilter : string;
  implementationSummary : list summary
}.

Definition initial : state := mkState [] false JNull "" "" "" [].

Definition nonempty (s : string) : bool := negb (String.eqb s "").

(** The predicate handed to [filter] in [filteredRecommendations]. *)
Definition shown (st : state) (rec : recommendation) : bool :=
  if nonempty (statusFilter st)
     && negb (String.eqb (status rec) (statusFilter st)) then false
  else if nonempty (categoryFilter st)
     && negb (String.eqb (category rec) (categoryFilter st)) then false
  else if String.eqb (implementationFilter st) "auto"
     && negb (can_implement rec) then false
  else if String.eqb (implementationFilter st) "manual"
     && can_implement rec then false
  else true.

Definition filteredRecommendations (st : state) : list recommendation :=
  List.filter (shown st) (recommendations st).

(** The numbers that are falsy: [0], [-0] and [NaN]. *)
Definition falsy_number (q : float) : bool :=
  PrimFloat.eqb q 0%float || PrimFloat.is_nan q.

(** [rec.estimated_savings || 0] *)
Definition or_zero (x : option float) : float :=
  match x with
  | Some q => if falsy_number q then 0%float else q
  | None => 0%float
  end.

(** [recommendations.value.reduce((total, rec) => ..., 0)]: the
    additions are those of the language, carried out from left to right
    in the order of the list. *)
Definition totalSavings (st : state) : float :=
  fold_left (fun total rec => (total + or_zero (estimated_savings rec))%float)
            (recommendations st) 0%float.

Definition warningCount (st : state) : nat :=
  length (List.filter (fun rec => String.eqb (status rec) "warning")
                      (recommendations st)).

Definition errorCount (st : state) : nat :=
  length (List.filter (fun rec => String.eqb (status rec) "error")
                      (recommendations st)).

Definition autoImplementableCount (st : state) : nat :=
  length (List.filter can_implement (recommendations st)).

(** [Array.prototype.findIndex]; [None] stands for [-1]. *)
Fixpoint findIndex {A : Type} (p : A -> bool) (l : list A) : option nat :=
  match l with
  | [] => None
  | x :: rest => if p x then Some 0 else S <$> findIndex p rest
  end.

(** [{ ...rec, status: s }] *)
Definition with_status (s : string) (rec : recommendation) : recommendation :=
  mkRecommendation (check_id rec) (category rec) (title rec) (description rec)
    s (estimated_savings rec) (can_implement rec) (affected_resources rec)
    (last_updated rec).

Definition summarize (result : Card.completed) : summary :=
  mkSummary (Card.checkId result)
    ("Implementation " +:+
       (if truthy (Card.success result) then "succeeded" else "failed"))
    (js_or (Card.savings result) (JNum 0%Qc)).

(** [unshift] followed by the [slice(0, 5)] guard. *)
Definition remember (entry : summary) (l : list summary) : list summary :=
  let l := entry :: l in
  if Nat.ltb 5 (length l) then take 5 l else l.

Definition handleImplementationCompleted (result : Card.completed)
    (st : state) : state :=
  let recs := recommendations st in
  let recs' :=
    match findIndex (fun r => String.eqb (check_id r) (Card.checkId result)) recs with
    | Some index =>
        alter (with_status (if truthy (Card.success result) then "ok" else "error"))
              index recs
    | None => recs
    end in
  mkState recs' (loading st) (error st) (statusFilter st) (categoryFilter st)
          (implementationFilter st)
          (remember (summarize result) (implementationSummary st)).

(** A click on a button of the card of [rec], followed by the settlement
    of the request: the card runs [implementRecommendation] and the list
    handles the event it emits, if any. *)
Definition implementFromCard (rec : recommendation) (dryRun : bool)
    (reply : settled) (cst : Card.state) (st : state) : Card.state * state :=
  let e := Card.implementRecommendation (check_id rec) dryRun reply cst in
  (Card.card e,
   match Card.emitted e with
   | Some result => handleImplementationCompleted result st
   | None => st
   end).

(** A recommendation with another estimate, everything else alike. *)
Definition with_estimate (x : option float) (rec : recommendation)
  : recommendation :=
  mkRecommendation (check_id rec) (category rec) (title rec) (description rec)
    (status rec) x (can_implement rec) (affected_resources rec)
    (last_updated rec).

(** The three [<select>] elements write the filters through [v-model]. *)
Definition setFilters (byStatus byCategory byImplementation : string)
    (st : state) : state :=
  mkState (recommendations st) (loading st) (error st)
          byStatus byCategory byImplementation (implementationSummary st).

(** The sum the header is meant to display, in the words of the
    specification: every recommendation contributes its estimated
    savings, an absent or [null] one contributes nothing, and neither
    does one that is zero or not a number.  The sum is taken in the
    order of the list, each term added to the sum of those before it. *)
Definition contribution (rec : recommendation) : float :=
  match estimated_savings rec with
  | None => 0%float
  | Some q => if falsy_number q then 0%float else q
  end.

Fixpoint sumFrom (total : float) (recs : list recommendation) : float :=
  match recs with
  | [] => total
  | rec :: rest => sumFrom (total + contribution rec)%float rest
  end.

Definition sumOfSavings (recs : list recommendation) : float :=
  sumFrom 0%float recs.

(** The list handling a sequence of [implementation-completed] events,
    oldest first. *)
Definition replay (results : list Card.completed) (st : state) : state :=
  fold_left (fun s result => handleImplementationCompleted result s) results st.

Definition withRecommendations (recs : list recommendation) (st : state)
  : state :=
  mkState recs (loading st) (error st) (statusFilter st) (categoryFilter st)
          (implementationFilter st) (implementationSummary st).


(** What [apiService.getRecommendations()] settles to.  A body is taken
    to carry the [recommendations] array as [GET /recommendations]
    delivers it; [Fetched None] is a response without a body, on which
    [data.recommendations] throws. *)
Inductive fetched : Type :=
| Fetched (data : option (list recommendation))
| FetchFailed (error : jsval).

(** The refs while [refreshRecommendations] awaits the response. *)
Definition loadingState (st : state) : state :=
  mkState (recommendations st) true JNull (statusFilter st) (categoryFilter st)
          (implementationFilter st) (implementationSummary st).

(** The [catch] block of [refreshRecommendations]; [None] when reading
    [err.response] throws. *)
Definition loadError (err : jsval) : option jsval :=
  response ← member err "response";
  Some (js_or (opt_member (opt_member response "data") "detail")
              (JStr "Failed to load recommendations")).

(** [refreshRecommendations]: the new state and whether an exception
    escaped.  [error] is reset before the request, [loading] is cleared
    by the [finally] block on every path. *)
Definition refreshRecommendations (reply : fetched) (st : state)
  : state * bool :=
  let settle recs err :=
    mkState recs false err (statusFilter st) (categoryFilter st)
            (implementationFilter st) (implementationSummary st) in
  let caught err :=
    match loadError err with
    | Some shown => (settle (recommendations st) shown, false)
    | None => (settle (recommendations st) JNull, true)
    end in
  match reply with
  | Fetched (Some recs) => (settle recs JNull, false)
  | Fetched None => caught Card.typeError
  | FetchFailed err => caught err
  end.

(** The [v-if] chain of the template below the filters. *)
Inductive pane : Type := Spinner | ErrorState | EmptyState | Grid.

Definition shownPane (st : state) : pane :=
  if loading st then Spinner
  else if truthy (error st) then ErrorState
  else if Nat.eqb (length (filteredRecommendations st)) 0 then EmptyState
  else Grid.

End RecList.

(** ** The remediation engine

    The Python back end ([backend/app/main.py] and its services) is
    known here only through the front end that calls it.  The engine is
    therefore modelled from sections 3, 4 and 7 of the specification. *)

Module Engine.

(** Modelled from the spec: the data model of section 3, beginning with
    the [Recommendation] entity and its enumerations. *)
Inductive Category : Type :=
| CostOptimization | Security | FaultTolerance | Performance.

Inductive Health : Type := Ok | Warning | Error | NotAvailable.

Record Recommendation : Type := mkRecommendation {
  id : string;
  kind : string;
  category : Category;
  status : Health;
  estimatedSavingsPerMonth : Qc;
  affectedResources : list string;
  lastUpdated : Z
}.

Record ResourceOutcome : Type := mkOutcome {
  succeeded : bool;
  errorDetail : string
}.

(** Modelled from the spec: the [AutomationOutcome] an automation
    reports, one outcome per resource in the order of the input, or an
    unrecoverable error raised before any resource was processed (such
    as [InventoryUnavailableError]). *)
Inductive AutomationOutcome : Type :=
| Processed (outcomes : list (string * ResourceOutcome))
| Unrecoverable (detail : string).

(** Modelled from the spec: an [Automation] of the registry, a stateless
    function of the resource set and the mode. *)
Record Automation : Type := mkAutomation {
  description : string;
  execute : list string -> bool -> AutomationOutcome
}.

(** Modelled from the spec: the states of an [ImplementationStatus]. *)
Inductive State : Type :=
| Idle | InProgress | Succeeded | Failed | PartiallyFailed.

#[global] Instance State_eq_dec : EqDecision State.
Proof. solve_decision. Defined.

(** Modelled from the spec: the [ImplementationResult] created once per
    execution attempt. *)
Record ImplementationResult : Type := mkResult {
  recommendationId : string;
  success : bool;
  dryRun : bool;
  message : string;
  savingsRealized : Qc;
  actedUpon : list string;
  perResourceOutcomes : list (string * ResourceOutcome)
}.

(** Modelled from the spec: the [ImplementationStatus] the Status
    Tracker keeps per recommendation identifier. *)
Record ImplementationStatus : Type := mkStatus {
  state : State;
  lastResult : option ImplementationResult
}.

(** Modelled from the spec: the error taxonomy of section 7. *)
Inductive EngineError : Type :=
| MalformedFindingError
| NotAutomatableError
| AlreadyInProgressError
| ResourceActionError
| InventoryUnavailableError.

Definition ok (o : string * ResourceOutcome) : bool := succeeded (snd o).
Definition failed (o : string * ResourceOutcome) : bool := negb (succeeded (snd o)).

(** Modelled from the spec: step 4 of the Execution Coordinator, the
    classification of a run from its per-resource outcomes. *)
Definition classify (o : AutomationOutcome) : State :=
  match o with
  | Unrecoverable _ => Failed
  | Processed outcomes =>
      if forallb ok outcomes && negb (Nat.eqb (length outcomes) 0) then Succeeded
      else if existsb ok outcomes && existsb failed outcomes then PartiallyFailed
      else Failed
  end.

(** Modelled from the spec: the human-readable summary of a result; a
    run over no resources is reported with a message of its own. *)
Definition describe (o : AutomationOutcome) : string :=
  match o with
  | Unrecoverable detail => "Remediation failed before any resource was processed: " +:+ detail
  | Processed [] => "No affected resources: nothing to remediate"
  | Processed _ =>
      match classify o with
      | Succeeded => "All affected resources were remediated"
      | PartiallyFailed => "Some affected resources could not be remediated"
      | _ => "No affected resource could be remediated"
      end
  end.

Definition reported (o : AutomationOutcome) : list (string * ResourceOutcome) :=
  match o with
  | Processed outcomes => outcomes
  | Unrecoverable _ => []
  end.

Definition Qc_of_nat (n : nat) : Qc := Qc_of_Z (Z.of_nat n).

(** Modelled from the spec: step 5 of the Execution Coordinator, the
    savings of a run over the affected [resources]: nothing in a dry run
    or on failure, the estimate on success, and on partial failure the
    estimate prorated by the share of the affected resources that
    succeeded. *)
Definition savings (dry : bool) (estimate : Qc) (resources : list string)
    (o : AutomationOutcome) : Qc :=
  if dry then 0%Qc
  else match classify o with
       | Succeeded => estimate
       | PartiallyFailed =>
           (estimate * (Qc_of_nat (length (List.filter ok (reported o)))
                        / Qc_of_nat (length resources)))%Qc
       | _ => 0%Qc
       end.

(** An execution that has passed the guard and is running. *)
Record Attempt : Type := mkAttempt {
  target : string;
  subject : Recommendation;
  automation : Automation;
  mode : bool
}.

(** Modelled from the spec: the state the Execution Coordinator works
    on: the Automation Registry, the recommendations, the Status
    Tracker's table, the history of results and the executions under
    way. *)
Record engine : Type := mkEngine {
  registry : gmap string Automation;
  findings : gmap string Recommendation;
  tracker : gmap string ImplementationStatus;
  history : gmap string (list ImplementationResult);
  inFlight : list Attempt
}.

Definition start (reg : gmap string Automation)
    (recs : gmap string Recommendation) : engine :=
  mkEngine reg recs ∅ ∅ [].

(** Modelled from the spec: [get] of the Status Tracker, an [Idle]
    status without history for a recommendation never executed. *)
Definition get (rid : string) (e : engine) : ImplementationStatus :=
  default (mkStatus Idle None) (tracker e !! rid).

(** Modelled from the spec: [canAutoImplement], derived from the
    registry. *)
Definition canAutoImplement (e : engine) (r : Recommendation) : bool :=
  bool_decide (is_Some (registry e !! kind r)).

(** Modelled from the spec: step 2 of the Execution Coordinator, the
    automation registered for the kind of the recommendation; an
    identifier that names no recommendation resolves to nothing. *)
Definition resolve (rid : string) (e : engine)
  : option (Recommendation * Automation) :=
  r ← findings e !! rid;
  a ← registry e !! kind r;
  Some (r, a).

Inductive Response : Type :=
| Started
| Refused (err : EngineError)
| Finished (result : ImplementationResult)
| NothingRunning.

Definition with_tracker (t : gmap string ImplementationStatus) (e : engine)
  : engine :=
  mkEngine (registry e) (findings e) t (history e) (inFlight e).

(** Put the entry of [rid] back to what it was before the request. *)
Definition revert (rid : string) (prior : option ImplementationStatus)
    (t : gmap string ImplementationStatus) : gmap string ImplementationStatus :=
  match prior with
  | Some s => <[rid := s]> t
  | None => delete rid t
  end.

(** Modelled from the spec: steps 1 and 2 of the Execution Coordinator,
    the arrival of a remediation request: the single-flight guard, the
    transition to [InProgress], and the resolution of the automation,
    which on failure puts the state back. *)
Definition request (rid : string) (dry : bool) (e : engine)
  : engine * Response :=
  let prior := tracker e !! rid in
  if decide (state (get rid e) = InProgress)
  then (e, Refused AlreadyInProgressError)
  else
    let entered :=
      with_tracker (<[rid := mkStatus InProgress (lastResult (get rid e))]> (tracker e)) e in
    match resolve rid entered with
    | None =>
        (with_tracker (revert rid prior (tracker entered)) entered,
         Refused NotAutomatableError)
    | Some (r, a) =>
        (mkEngine (registry entered) (findings entered) (tracker entered)
                  (history entered) (inFlight entered ++ [mkAttempt rid r a dry])%list,
         Started)
    end.

Definition aims_at (rid : string) (a : Attempt) : bool :=
  String.eqb (target a) rid.

Definition advance (r : Recommendation) : Recommendation :=
  mkRecommendation (id r) (kind r) (category r) Ok
    (estimatedSavingsPerMonth r) (affectedResources r) (lastUpdated r).

(** Step 3: the automation is invoked on the affected resources. *)
Definition outcomeOf (a : Attempt) : AutomationOutcome :=
  execute (automation a) (affectedResources (subject a)) (mode a).

(** Modelled from the spec: steps 3 to 6 of the Execution Coordinator
    for one running attempt: invoke, aggregate, compute the savings and
    build the result. *)
Definition conclude (a : Attempt) : ImplementationResult :=
  let o := outcomeOf a in
  mkResult (target a)
           (bool_decide (classify o = Succeeded))
           (mode a)
           (describe o)
           (savings (mode a) (estimatedSavingsPerMonth (subject a))
                    (affectedResources (subject a)) o)
           (map fst (reported o))
           (reported o).

(** Modelled from the spec: the end of the execution running for [rid]:
    the result is persisted, the state moves to the classification, and
    a real run that succeeded advances the recommendation to [Ok]. *)
Definition complete (rid : string) (e : engine) : engine * Response :=
  match List.find (aims_at rid) (inFlight e) with
  | None => (e, NothingRunning)
  | Some a =>
      let result := conclude a in
      let cls := classify (outcomeOf a) in
      (mkEngine (registry e)
                (if negb (mode a) && bool_decide (cls = Succeeded)
                 then alter advance rid (findings e) else findings e)
                (<[rid := mkStatus cls (Some result)]> (tracker e))
                (<[rid := (default [] (history e !! rid) ++ [result])%list]> (history e))
                (List.filter (fun b => negb (aims_at rid b)) (inFlight e)),
       Finished result)
  end.

Inductive Event : Type :=
| Request (rid : string) (dry : bool)
| Complete (rid : string).

Definition step (e : engine) (ev : Event) : engine * Response :=
  match ev with
  | Request rid dry => request rid dry e
  | Complete rid => complete rid e
  end.

(** An interleaving of arrivals and completions, with the response to
    each. *)
Fixpoint run (e : engine) (evs : list Event) : engine * list Response :=
  match evs with
  | [] => (e, [])
  | ev :: rest =>
      let '(e1, r) := step e ev in
      let '(e2, rs) := run e1 rest in
      (e2, r :: rs)
  end.

(** Modelled from the spec: a request served from arrival to result. *)
Definition implement (rid : string) (dry : bool) (e : engine)
  : engine * Response :=
  match request rid dry e with
  | (e1, Started) => complete rid e1
  | refused => refused
  end.

Definition running (rid : string) (e : engine) : nat :=
  length (List.filter (aims_at rid) (inFlight e)).

(** The single-flight invariant: an execution is under way for an
    identifier exactly when its state is [InProgress], and then there is
    one. *)
Definition single_flight (e : engine) : Prop :=
  forall rid,
    running rid e = if decide (state (get rid e) = InProgress) then 1%nat else 0%nat.

(** A recommendation in progress has a registered automation. *)
Definition resolvable (e : engine) : Prop :=
  forall rid, state (get rid e) = InProgress -> is_Some (resolve rid e).

End Engine.

(** ** Sample data *)

Module Scenario.

Definition idleInstances : RecList.recommendation :=
  RecList.mkRecommendation "ec2-idle" "cost_optimization" "Idle EC2 Instances"
    "Stop idle EC2 instances to reduce costs" "warning"
    (Some 150%float) true ["i-1234567890abcdef0"] "2024-01-01T00:00:00".

Definition unversionedBucket : RecList.recommendation :=
  RecList.mkRecommendation "s3-versioning" "fault_tolerance" "S3 Bucket Versioning"
    "Enable versioning on S3 buckets" "error"
    None false ["logs-bucket"] "2024-01-01T00:00:00".

Definition listed : RecList.state :=
  RecList.withRecommendations [idleInstances; unversionedBucket] RecList.initial.

(** The reply of the server to a dry run that found one instance to stop. *)
Definition dryRunReply : settled :=
  Resolved (JObj [("success", JBool true);
                  ("message", JStr "Dry run: would stop 1 idle EC2 instances");
                  ("savings", JNum 0%Qc);
                  ("affected_resources", JObj [("0", JStr "i-1234567890abcdef0")])]).

(** An automation that fails on the resource [res-d] and succeeds on
    every other one. *)
Definition stopIdle : Engine.Automation :=
  Engine.mkAutomation "Stop idle instances"
    (fun resources _ =>
       Engine.Processed
         (map (fun r => (r, if String.eqb r "res-d"
                            then Engine.mkOutcome false "instance is locked"
                            else Engine.mkOutcome true ""))
              resources)).

Definition r1 : Engine.Recommendation :=
  Engine.mkRecommendation "r1" "stop_idle_instances" Engine.CostOptimization
    Engine.Warning (Qc_of_Z 50) ["res-a"; "res-b"] 0.

Definition r2 : Engine.Recommendation :=
  Engine.mkRecommendation "r2" "stop_idle_instances" Engine.CostOptimization
    Engine.Warning (Qc_of_Z 100) ["res-a"; "res-b"; "res-c"; "res-d"] 0.

Definition r3 : Engine.Recommendation :=
  Engine.mkRecommendation "r3" "rotate_keys" Engine.Security
    Engine.Error 0%Qc ["key-1"] 0.

Definition fresh : Engine.engine :=
  Engine.start {[ "stop_idle_instances" := stopIdle ]}
               (<["r1" := r1]> (<["r2" := r2]> {[ "r3" := r3 ]})).

End Scenario.

(** * Properties of the front end *)

Section ApiClient.

Import Api.

Lemma truthy_js_or_false (v : jsval) :
  is_boolean (js_or v (JBool false)) = is_boolean v || negb (truthy v).
Proof.
  unfold js_or. destruct (truthy v) eqn:Hv; simpl.
  - by rewrite orb_false_r.
  - by rewrite orb_true_r.
Qed.

Lemma implementRecommendation_defined (checkId : string) (options : jsval) :
  options ≠ JNull ->
  Api.implementRecommendation checkId options =
    Some (mkRequest "POST" ("/implement/" +:+ checkId)
            (JObj [("dry_run", js_or (get_prop options "dryRun") (JBool false));
                   ("force", js_or (get_prop options "force") (JBool false))])).
Proof.
  intros Hnull. destruct options; try done.
Qed.

(** A truthy option that is not a boolean is sent as it is. *)
Example implementRecommendation_passes_truthy_through :
  body <$> Api.implementRecommendation "c1" (JObj [("dryRun", JStr "yes")])
  = Some (JObj [("dry_run", JStr "yes"); ("force", JBool false)]).
Proof. reflexivity. Qed.

(** A call of the API client with a truthy option that is not a
    boolean: the request is issued and its dry_run field is the string
    given, not a boolean. *)
Lemma implementRecommendation_body_not_boolean :
  exists req,
    Api.implementRecommendation "ec2-idle" (JObj [("dryRun", JStr "yes")])
    = Some req
    /\ method req = "POST"
    /\ url req = "/implement/ec2-idle"
    /\ get_prop (body req) "dry_run" = JStr "yes"
    /\ is_boolean (get_prop (body req) "dry_run") = false.
Proof.
  eexists. split; [reflexivity |]. by repeat split.
Qed.

(** C6, as the code has it: every call of implementRecommendation of the
    API client, with whatever options object, issues a POST to
    /implement/{id} whose body has exactly the fields dry_run and force;
    dry_run is false when the caller leaves dryRun out, force is false
    when the caller leaves force out; a truthy option is sent as it is,
    so a field is a boolean exactly when the option given is a boolean
    or falsy.  That is the case in every request the front end issues:
    the card sends its boolean mode as dry_run and force false. *)
Theorem implementRecommendation_body (checkId : string) (options : jsval) :
  (forall (dryRun : bool) (reply : settled) (st : Card.state),
     Card.sent (Card.implementRecommendation checkId dryRun reply st)
     = Some (mkRequest "POST" ("/implement/" +:+ checkId)
               (JObj [("dry_run", JBool dryRun); ("force", JBool false)])))
  /\ (options ≠ JNull ->
      exists dry_run force,
        Api.implementRecommendation checkId options
        = Some (mkRequest "POST" ("/implement/" +:+ checkId)
                  (JObj [("dry_run", dry_run); ("force", force)]))
        /\ (get_prop options "dryRun" = JUndefined -> dry_run = JBool false)
        /\ (get_prop options "force" = JUndefined -> force = JBool false)
        /\ is_boolean dry_run
           = is_boolean (get_prop options "dryRun")
             || negb (truthy (get_prop options "dryRun"))
        /\ is_boolean force
           = is_boolean (get_prop options "force")
             || negb (truthy (get_prop options "force"))
        /\ dry_run
           = (if truthy (get_prop options "dryRun")
              then get_prop options "dryRun" else JBool false)
        /\ force
           = (if truthy (get_prop options "force")
              then get_prop options "force" else JBool false)).
Proof.
  split.
  - intros dryRun reply st.
    assert (Hreq : Card.sent (Card.implementRecommendation checkId dryRun reply st)
                   = Api.implementRecommendation checkId (JObj [("dryRun", JBool dryRun)])).
    { unfold Card.implementRecommendation.
      destruct reply as [result | err].
      - destruct (member result "success"), (member result "savings");
          simpl; try reflexivity;
          destruct (Card.handleError Card.typeError result); reflexivity.
      - destruct (Card.handleError err JNull); reflexivity. }
    rewrite Hreq. by destruct dryRun.
  - intros Hnull.
    exists (js_or (get_prop options "dryRun") (JBool false)),
           (js_or (get_prop options "force") (JBool false)).
    split; [by apply implementRecommendation_defined |].
    repeat split.
    + by intros ->.
    + by intros ->.
    + apply truthy_js_or_false.
    + apply truthy_js_or_false.
Qed.

(** The call of the Dry Run button's neighbour: an options object that
    names neither option. *)
Lemma implementRecommendation_body_witness :
  exists dry_run force,
    Api.implementRecommendation "ec2-idle" (JObj [])
    = Some (mkRequest "POST" "/implement/ec2-idle"
              (JObj [("dry_run", dry_run); ("force", force)]))
    /\ dry_run = JBool false /\ force = JBool false.
Proof.
  destruct (implementRecommendation_body "ec2-idle" (JObj [])) as [_ H].
  destruct H as (d & f & Hreq & Hd & Hf & _); [discriminate |].
  exists d, f. split; [exact Hreq |].
  split; [apply Hd | apply Hf]; reflexivity.
Defined.

End ApiClient.

Section Health.

Variable toLocaleString : jsval -> string.
Variable now : jsval.

Lemma checkHealth_resolved (st : App.state) (h : jsval) :
  App.checkHealth toLocaleString now st (Resolved h)
  = if nullish h then App.healthFailed toLocaleString now st
    else App.mkState (get_prop h "status") (get_prop h "aws_connection") false
           (toLocaleString (get_prop h "timestamp")) (App.showHealthModal st).
Proof.
  unfold App.checkHealth, member. by destruct (nullish h).
Qed.

(** C7: when the health request fails, checkHealth sets aws_connection
    to false and the health status to unhealthy, which the header shows
    as Unhealthy and Disconnected; a response without a body ends the
    same way; and of a response that arrives, checkHealth consumes the
    properties status, aws_connection and timestamp and nothing else:
    two responses that agree on these three leave the same state. *)
Theorem checkHealth_unreachable (st : App.state) (error : jsval) :
  let st' := App.checkHealth toLocaleString now st (Rejected error) in
  (App.awsConnection st' = JBool false
   /\ App.healthStatus st' = JStr "unhealthy"
   /\ App.healthStatusText st' = "Unhealthy"
   /\ App.awsConnectionText st' = "Disconnected"
   /\ App.healthLoading st' = false)
  /\ (forall h, nullish h = true ->
        App.checkHealth toLocaleString now st (Resolved h) = st')
  /\ (forall h, nullish h = false ->
        let got := App.checkHealth toLocaleString now st (Resolved h) in
        App.healthStatus got = get_prop h "status"
        /\ App.awsConnection got = get_prop h "aws_connection"
        /\ App.lastHealthCheck got = toLocaleString (get_prop h "timestamp"))
  /\ (forall h1 h2,
        nullish h1 = nullish h2 ->
        get_prop h1 "status" = get_prop h2 "status" ->
        get_prop h1 "aws_connection" = get_prop h2 "aws_connection" ->
        get_prop h1 "timestamp" = get_prop h2 "timestamp" ->
        App.checkHealth toLocaleString now st (Resolved h1)
        = App.checkHealth toLocaleString now st (Resolved h2)).
Proof.
  cbn zeta. split; [| split; [| split]].
  - by repeat split.
  - intros h Hh. rewrite checkHealth_resolved, Hh. reflexivity.
  - intros h Hh. rewrite checkHealth_resolved, Hh. by repeat split.
  - intros h1 h2 Hn Hs Ha Ht.
    rewrite !checkHealth_resolved, Hn, Hs, Ha, Ht. reflexivity.
Qed.

End Health.

(** A response with an extra property is consumed like the plain one. *)
Lemma checkHealth_unreachable_witness :
  App.checkHealth (fun _ => "now") JNull App.initial
    (Resolved (JObj [("status", JStr "healthy"); ("aws_connection", JBool true);
                     ("timestamp", JStr "2024-01-01T00:00:00"); ("version", JStr "1.0.0")]))
  = App.checkHealth (fun _ => "now") JNull App.initial
      (Resolved (JObj [("status", JStr "healthy"); ("aws_connection", JBool true);
                       ("timestamp", JStr "2024-01-01T00:00:00")])).
Proof.
  apply (checkHealth_unreachable (fun _ => "now") JNull App.initial JNull);
    reflexivity.
Defined.

Section CardFailure.

Import Card.

Lemma truthy_js_or_string (v : jsval) (s : string) :
  s ≠ "" -> truthy (js_or v (JStr s)) = true.
Proof.
  intros Hs. unfold js_or. destruct (truthy v) eqn:Hv; [done |].
  simpl. by rewrite bool_decide_eq_false_2.
Qed.

Lemma handleError_structured (error current : jsval) :
  nullish error = false ->
  exists m,
    handleError error current
    = (JObj [("success", JBool false); ("message", m)], false)
    /\ m = js_or (opt_member (opt_member (get_prop error "response") "data") "detail")
                 (JStr "Implementation failed")
    /\ truthy m = true.
Proof.
  intros Herr. unfold handleError, member. rewrite Herr.
  eexists. split; [reflexivity |]. split; [reflexivity |].
  by apply truthy_js_or_string.
Qed.

(** C8: a call of implementRecommendation whose request fails with an
    error object (a transport error or an error response of the server)
    lets no exception escape: the card ends up holding a result object
    with success false and a message that is truthy, hence neither
    missing nor the empty string, namely the detail the server sent or
    else the text Implementation failed; it is a string whenever the
    detail is a string or absent.  The same holds when the call fails
    because the reply has no body.  In both cases the implementing flag
    is reset and no completion event is emitted. *)
Theorem implementRecommendation_failure_structured
    (check_id : string) (dryRun : bool) (st : Card.state) (error : jsval) :
  nullish error = false ->
  (let e := implementRecommendation check_id dryRun (Rejected error) st in
   let detail :=
     opt_member (opt_member (get_prop error "response") "data") "detail" in
   exists m,
     implementationResult (card e)
     = JObj [("success", JBool false); ("message", m)]
     /\ truthy m = true
     /\ m ≠ JStr ""
     /\ m = (if truthy detail then detail else JStr "Implementation failed")
     /\ (is_string detail || negb (truthy detail) = true -> is_string m = true)
     /\ uncaught e = false
     /\ implementing (card e) = false
     /\ emitted e = None)
  /\ (forall result, nullish result = true ->
      let e := implementRecommendation check_id dryRun (Resolved result) st in
      implementationResult (card e)
      = JObj [("success", JBool false); ("message", JStr "Implementation failed")]
      /\ uncaught e = false
      /\ implementing (card e) = false
      /\ emitted e = None).
Proof.
  intros Herr. split.
  - cbn zeta. unfold implementRecommendation.
    destruct (handleError_structured error JNull Herr) as (m & Hh & Hm & Ht).
    rewrite Hh. exists m. simpl.
    split; [reflexivity |]. split; [exact Ht |].
    split; [by intros -> |].
    split; [exact Hm |].
    split; [| done].
    clear Hh Ht. subst m. unfold js_or.
    destruct (truthy (opt_member _ "detail")) eqn:Hd; [| done].
    simpl. by rewrite orb_false_r.
  - intros result Hres. cbn zeta. unfold implementRecommendation, member.
    rewrite Hres. simpl. done.
Qed.

(** A request that times out: axios rejects with an error that carries
    no response. *)
Lemma implementRecommendation_failure_structured_witness :
  exists m,
    implementationResult
      (card (implementRecommendation "ec2-idle" false
               (Rejected (JObj [("message", JStr "timeout of 30000ms exceeded")]))
               pending))
    = JObj [("success", JBool false); ("message", m)]
    /\ truthy m = true.
Proof.
  destruct (implementRecommendation_failure_structured "ec2-idle" false pending
              (JObj [("message", JStr "timeout of 30000ms exceeded")]))
    as [(m & Hres & Hm & _) _]; [reflexivity |].
  exists m. split; [exact Hres | exact Hm].
Defined.

(** The server's own explanation reaches the user. *)
Example implementRecommendation_shows_detail :
  implementationResult
    (card (implementRecommendation "ec2-idle" false
             (Rejected (JObj [("response",
                 JObj [("status", JNum (Qc_of_Z 500));
                       ("data", JObj [("detail", JStr "Access denied")])])]))
             pending))
  = JObj [("success", JBool false); ("message", JStr "Access denied")].
Proof. reflexivity. Qed.

End CardFailure.

Section Totals.

Import RecList.

Lemma or_zero_contribution (rec : recommendation) :
  or_zero (estimated_savings rec) = contribution rec.
Proof.
  unfold or_zero, contribution. by destruct (estimated_savings rec).
Qed.

Lemma reduce_from (recs : list recommendation) (total : float) :
  fold_left (fun total rec => (total + or_zero (estimated_savings rec))%float)
            recs total
  = sumFrom total recs.
Proof.
  revert total. induction recs as [| rec rest IH]; intros total; simpl.
  - reflexivity.
  - by rewrite IH, or_zero_contribution.
Qed.

Lemma filtered_sublist (st : state) :
  sublist (filteredRecommendations st) (recommendations st).
Proof.
  unfold filteredRecommendations.
  induction (recommendations st) as [| rec rest IH]; simpl; [done |].
  destruct (shown st rec); by constructor.
Qed.

Lemma sumFrom_app (recs more : list recommendation) (total : float) :
  sumFrom total (recs ++ more) = sumFrom (sumFrom total recs) more.
Proof.
  revert total. induction recs as [| rec rest IH]; intros total; simpl; [done |].
  apply IH.
Qed.

(** C9: the total in the header is the sum of the estimated savings of
    all recommendations, added in the floating-point arithmetic of the
    language in the order of the list, an absent or null estimate
    counting as 0; every recommendation of the list enters it, one more
    recommendation adding its estimate to the total so far; it is
    computed from the whole list, so whatever the status, category and
    implementation filters are set to, the total stays the same while
    the displayed list shrinks to a sublist. *)
Theorem totalSavings_ignores_filters (st : state)
    (byStatus byCategory byImplementation : string) :
  totalSavings st = sumOfSavings (recommendations st)
  /\ totalSavings (setFilters byStatus byCategory byImplementation st)
     = totalSavings st
  /\ sublist
       (filteredRecommendations (setFilters byStatus byCategory byImplementation st))
       (recommendations st)
  /\ (forall rec,
        totalSavings (withRecommendations (recommendations st ++ [rec])%list st)
        = (totalSavings st + contribution rec)%float)
  /\ (forall rec,
        totalSavings
          (withRecommendations
             (recommendations st
              ++ [with_estimate None rec])%list st)
        = (totalSavings st + 0)%float).
Proof.
  assert (Hsum : forall s, totalSavings s = sumOfSavings (recommendations s)).
  { intros s. unfold totalSavings. by rewrite reduce_from. }
  split; [| split; [| split; [| split]]].
  - apply Hsum.
  - reflexivity.
  - apply (filtered_sublist (setFilters byStatus byCategory byImplementation st)).
  - intros rec. rewrite !Hsum. unfold sumOfSavings. simpl.
    by rewrite sumFrom_app.
  - intros rec. rewrite !Hsum. unfold sumOfSavings. simpl.
    by rewrite sumFrom_app.
Qed.

(** Zero of either sign and NaN are falsy and count as 0, like an absent
    estimate; every other number counts as itself. *)
Example falsy_estimates :
  or_zero None = 0%float
  /\ or_zero (Some 0%float) = 0%float
  /\ or_zero (Some (-0)%float) = 0%float
  /\ or_zero (Some PrimFloat.nan) = 0%float
  /\ or_zero (Some 150%float) = 150%float
  /\ or_zero (Some (-45.5)%float) = (-45.5)%float.
Proof. by repeat split. Qed.

(** The additions are those of binary64: 0.1 and 0.2 total
    0.30000000000000004, which is not 0.3. *)
#[warnings="-inexact-float"]
Example total_is_binary64 :
  let tenth := with_estimate (Some 0.1%float) Scenario.idleInstances in
  let fifth := with_estimate (Some 0.2%float) Scenario.unversionedBucket in
  let st := withRecommendations [tenth; fifth] initial in
  totalSavings st = 0.30000000000000004%float
  /\ totalSavings st ≠ 0.3%float.
Proof.
  cbn zeta. split; [reflexivity |].
  vm_compute. intros H. discriminate H.
Qed.

(** With the status filter on warning the list shows one of the two
    recommendations, and the header still totals both. *)
Example total_with_status_filter :
  let st := setFilters "warning" "" "" Scenario.listed in
  filteredRecommendations st = [Scenario.idleInstances]
  /\ length (recommendations st) = 2%nat
  /\ totalSavings st = 150%float
  /\ totalSavings Scenario.listed = 150%float.
Proof.
  cbn zeta. by repeat split.
Qed.

End Totals.

Section Summary.

Import RecList.

Lemma remember_take (entry : summary) (l : list summary) :
  remember entry l = take 5 (entry :: l).
Proof.
  unfold remember. destruct (Nat.ltb_spec 5 (length (entry :: l))) as [Hlt | Hge].
  - reflexivity.
  - symmetry. by apply take_ge.
Qed.

Lemma take_app_take {A : Type} (n : nat) (l k : list A) :
  take n (l ++ take n k) = take n (l ++ k).
Proof.
  rewrite !take_app, take_take. f_equal. f_equal. lia.
Qed.

Lemma summary_after (result : Card.completed) (st : state) :
  implementationSummary (handleImplementationCompleted result st)
  = take 5 (summarize result :: implementationSummary st).
Proof. apply remember_take. Qed.

Lemma replay_summary (results : list Card.completed) (st : state) :
  (length (implementationSummary st) <= 5)%nat ->
  implementationSummary (replay results st)
  = take 5 (rev (map summarize results) ++ implementationSummary st).
Proof.
  revert st. induction results as [| r rest IH]; intros st Hlen.
  - simpl. symmetry. by apply take_ge.
  - change (replay (r :: rest) st)
      with (replay rest (handleImplementationCompleted r st)).
    rewrite IH.
    + rewrite summary_after, take_app_take.
      cbn [map rev]. by rewrite <- app_assoc.
    + rewrite summary_after, length_take. lia.
Qed.

(** C10: after the list has handled an implementation-completed event
    the summary of recent implementations has at most 5 entries and
    starts with the entry of that event, followed by the previous
    entries, cut to 5; so after any sequence of events it holds the 5
    most recent entries, newest first. *)
Theorem summary_keeps_five_newest (result : Card.completed) (st : state) :
  let st' := handleImplementationCompleted result st in
  (length (implementationSummary st') <= 5)%nat
  /\ implementationSummary st'
     = take 5 (summarize result :: implementationSummary st)
  /\ head (implementationSummary st') = Some (summarize result)
  /\ (forall results recs,
        let final := replay results (withRecommendations recs initial) in
        implementationSummary final = take 5 (rev (map summarize results))
        /\ (length (implementationSummary final) <= 5)%nat).
Proof.
  cbn zeta. rewrite summary_after. split; [| split; [| split]].
  - rewrite length_take. lia.
  - reflexivity.
  - reflexivity.
  - intros results recs.
    rewrite replay_summary by (simpl; lia).
    simpl. rewrite app_nil_r. split; [reflexivity |].
    rewrite length_take. lia.
Qed.

End Summary.

Section DryRun.

Import RecList.

Lemma completed_event (check_id : string) (dryRun : bool) (result : jsval)
    (cst : Card.state) :
  nullish result = false ->
  Card.implementRecommendation check_id dryRun (Resolved result) cst
  = Card.mkEffect (Card.mkState false result)
      (Api.implementRecommendation check_id (JObj [("dryRun", JBool dryRun)]))
      (Some (Card.mkCompleted check_id (get_prop result "success")
                              (get_prop result "savings")))
      false.
Proof.
  intros Hres. unfold Card.implementRecommendation, member. by rewrite Hres.
Qed.

(** Whatever the mode, a completed call that the server reports as
    successful marks the first recommendation with that id as ok. *)
Lemma completion_marks_ok (rec : recommendation) (others : list recommendation)
    (dryRun : bool) (result : jsval) (cst : Card.state) (st : state) :
  nullish result = false ->
  truthy (get_prop result "success") = true ->
  recommendations
    (snd (implementFromCard rec dryRun (Resolved result) cst
            (withRecommendations (rec :: others) st)))
  = with_status "ok" rec :: others.
Proof.
  intros Hres Hok. unfold implementFromCard.
  rewrite completed_event by done. simpl.
  by rewrite String.eqb_refl, Hok.
Qed.

(** C1, on the Dry Run button of the card of a recommendation listed
    with status warning, answered by the server with success: the
    implementing flag is cleared and the estimated savings are as before,
    but the handler of the completion event has rewritten the stored
    status of the recommendation from warning to ok, although nothing
    was changed. *)
Theorem dry_run_rewrites_status :
  let before := Scenario.listed in
  let after :=
    implementFromCard Scenario.idleInstances true Scenario.dryRunReply
                      Card.pending before in
  Card.implementing (fst after) = false
  /\ map estimated_savings (recommendations (snd after))
     = map estimated_savings (recommendations before)
  /\ map status (recommendations before) = ["warning"; "error"]
  /\ map status (recommendations (snd after)) = ["ok"; "error"]
  /\ recommendations (snd after) ≠ recommendations before.
Proof.
  cbn zeta. repeat split; try reflexivity.
  intros Heq. apply (f_equal (map status)) in Heq. discriminate Heq.
Qed.

End DryRun.

(** * Properties of the remediation engine *)

Section Classification.

Import Engine.

Lemma forallb_ok (outcomes : list (string * ResourceOutcome)) :
  forallb ok outcomes = true <-> Forall (fun o => succeeded (snd o) = true) outcomes.
Proof.
  induction outcomes as [| o rest IH]; simpl.
  - split; [constructor | done].
  - by rewrite andb_true_iff, Forall_cons, IH.
Qed.

Lemma existsb_ok (outcomes : list (string * ResourceOutcome)) :
  existsb ok outcomes = true <-> Exists (fun o => succeeded (snd o) = true) outcomes.
Proof.
  induction outcomes as [| o rest IH]; simpl.
  - split; [done | by inversion 1].
  - by rewrite orb_true_iff, Exists_cons, IH.
Qed.

Lemma existsb_failed (outcomes : list (string * ResourceOutcome)) :
  existsb failed outcomes = true <-> Exists (fun o => succeeded (snd o) = false) outcomes.
Proof.
  induction outcomes as [| o rest IH]; simpl.
  - split; [done | by inversion 1].
  - rewrite orb_true_iff, Exists_cons, IH. unfold failed.
    by rewrite negb_true_iff.
Qed.

Lemma forallb_failed (outcomes : list (string * ResourceOutcome)) :
  forallb failed outcomes = true <-> Forall (fun o => succeeded (snd o) = false) outcomes.
Proof.
  induction outcomes as [| o rest IH]; simpl.
  - split; [constructor | done].
  - rewrite andb_true_iff, Forall_cons, IH. unfold failed.
    by rewrite negb_true_iff.
Qed.

(** Either some resource succeeded or all of them failed. *)
Lemma existsb_ok_or_all_failed (outcomes : list (string * ResourceOutcome)) :
  existsb ok outcomes = negb (forallb failed outcomes).
Proof.
  induction outcomes as [| o rest IH]; [done |].
  simpl. rewrite IH. unfold failed, ok. by destruct (succeeded (snd o)).
Qed.

Lemma existsb_failed_or_all_ok (outcomes : list (string * ResourceOutcome)) :
  existsb failed outcomes = negb (forallb ok outcomes).
Proof.
  induction outcomes as [| o rest IH]; [done |].
  simpl. rewrite IH. unfold failed, ok. by destruct (succeeded (snd o)).
Qed.

Lemma classify_processed (outcomes : list (string * ResourceOutcome)) :
  classify (Processed outcomes)
  = if forallb failed outcomes then Failed
    else if forallb ok outcomes then Succeeded
    else PartiallyFailed.
Proof.
  unfold classify.
  rewrite existsb_ok_or_all_failed, existsb_failed_or_all_ok.
  destruct outcomes as [| o rest]; [done |].
  cbn [forallb length Nat.eqb].
  generalize (forallb ok rest), (forallb failed rest). intros a b.
  unfold failed, ok. by destruct (succeeded (snd o)), a, b.
Qed.

(** C4: a run is classified Succeeded exactly when at least one
    resource was processed and the outcome of every resource succeeded;
    a run over no resources is classified Failed, with a message that
    says so, and not Succeeded; PartiallyFailed exactly when some
    resource succeeded and some resource failed; Failed exactly when
    every resource failed or an unrecoverable error occurred before any
    resource was processed; and no run is classified Idle or InProgress. *)
Theorem classify_characterised (o : AutomationOutcome) :
  (classify o = Succeeded <->
     exists outcomes, o = Processed outcomes /\ outcomes ≠ []
       /\ Forall (fun r => succeeded (snd r) = true) outcomes)
  /\ (classify (Processed []) = Failed
      /\ describe (Processed []) = "No affected resources: nothing to remediate")
  /\ (classify o = PartiallyFailed <->
        exists outcomes, o = Processed outcomes
          /\ Exists (fun r => succeeded (snd r) = true) outcomes
          /\ Exists (fun r => succeeded (snd r) = false) outcomes)
  /\ (classify o = Failed <->
        (exists outcomes, o = Processed outcomes
           /\ Forall (fun r => succeeded (snd r) = false) outcomes)
        \/ (exists detail, o = Unrecoverable detail))
  /\ classify o ≠ Idle /\ classify o ≠ InProgress.
Proof.
  split; [| split; [done | split; [| split]]].
  - split.
    + destruct o as [outcomes | detail]; [| done].
      rewrite classify_processed. intros H. exists outcomes.
      destruct (forallb failed outcomes) eqn:Hf; [done |].
      destruct (forallb ok outcomes) eqn:Hk; [| done].
      split; [done |]. split; [by intros -> | by apply forallb_ok].
    + intros (outcomes & -> & Hne & Hall).
      rewrite classify_processed.
      apply forallb_ok in Hall. rewrite Hall.
      destruct outcomes as [| r rest]; [done |].
      simpl in *. unfold failed, ok in *.
      by destruct (succeeded (snd r)).
  - split.
    + destruct o as [outcomes | detail]; [| done].
      rewrite classify_processed. intros H. exists outcomes.
      destruct (forallb failed outcomes) eqn:Hf; [done |].
      destruct (forallb ok outcomes) eqn:Hk; [done |].
      split; [done |]. split.
      * apply existsb_ok. by rewrite existsb_ok_or_all_failed, Hf.
      * apply existsb_failed. by rewrite existsb_failed_or_all_ok, Hk.
    + intros (outcomes & -> & Hs & Hf).
      rewrite classify_processed.
      apply existsb_ok in Hs. apply existsb_failed in Hf.
      rewrite existsb_ok_or_all_failed in Hs.
      rewrite existsb_failed_or_all_ok in Hf.
      apply negb_true_iff in Hs, Hf. by rewrite Hs, Hf.
  - split.
    + destruct o as [outcomes | detail]; [| intros _; right; by eexists].
      rewrite classify_processed. intros H. left. exists outcomes.
      split; [done |]. apply forallb_failed.
      destruct (forallb failed outcomes); [done |].
      by destruct (forallb ok outcomes).
    + intros [(outcomes & -> & Hall) | (detail & ->)]; [| done].
      rewrite classify_processed. apply forallb_failed in Hall. by rewrite Hall.
  - destruct o as [outcomes | detail]; [| done].
    rewrite classify_processed.
    by destruct (forallb failed outcomes), (forallb ok outcomes).
Qed.

(** Three resources remediated and one locked: a partial failure. *)
Lemma classify_characterised_witness :
  classify (Processed [("res-a", mkOutcome true ""); ("res-d", mkOutcome false "locked")])
  = PartiallyFailed.
Proof.
  apply classify_characterised.
  eexists. split; [reflexivity |]. split.
  - apply Exists_cons_hd. reflexivity.
  - apply Exists_cons_tl, Exists_cons_hd. reflexivity.
Defined.

End Classification.

Section Coordinator.

Import Engine.

Lemma revert_insert (rid : string) (s : ImplementationStatus)
    (t : gmap string ImplementationStatus) :
  revert rid (t !! rid) (<[rid := s]> t) = t.
Proof.
  destruct (t !! rid) as [prior |] eqn:Hprior; simpl.
  - rewrite insert_insert_eq. by apply insert_id.
  - rewrite delete_insert_eq. by apply delete_id.
Qed.

(** The three ways a request can go. *)
Lemma request_refused_in_progress (rid : string) (dry : bool) (e : engine) :
  state (get rid e) = InProgress ->
  request rid dry e = (e, Refused AlreadyInProgressError).
Proof.
  intros Hbusy. unfold request. by rewrite decide_True.
Qed.

Lemma request_refused_not_automatable (rid : string) (dry : bool) (e : engine) :
  state (get rid e) ≠ InProgress ->
  resolve rid e = None ->
  request rid dry e = (e, Refused NotAutomatableError).
Proof.
  intros Hfree Hnone. unfold request. rewrite decide_False by done.
  change (resolve rid (with_tracker _ e)) with (resolve rid e).
  rewrite Hnone. unfold with_tracker. simpl.
  rewrite revert_insert. by destruct e.
Qed.

Lemma request_started (rid : string) (dry : bool) (e : engine)
    (r : Recommendation) (a : Automation) :
  state (get rid e) ≠ InProgress ->
  resolve rid e = Some (r, a) ->
  request rid dry e
  = (mkEngine (registry e) (findings e)
       (<[rid := mkStatus InProgress (lastResult (get rid e))]> (tracker e))
       (history e) (inFlight e ++ [mkAttempt rid r a dry]),
     Started).
Proof.
  intros Hfree Hsome. unfold request. rewrite decide_False by done.
  change (resolve rid (with_tracker _ e)) with (resolve rid e).
  by rewrite Hsome.
Qed.

Lemma get_insert (rid rid' : string) (s : ImplementationStatus) (e : engine)
    (fs : gmap string Recommendation)
    (h : gmap string (list ImplementationResult)) (l : list Attempt) :
  get rid (mkEngine (registry e) fs (<[rid' := s]> (tracker e)) h l)
  = if decide (rid' = rid) then s else get rid e.
Proof.
  unfold get. simpl. rewrite lookup_insert. by case_decide.
Qed.

Lemma aims_at_true (rid : string) (a : Attempt) :
  aims_at rid a = true <-> target a = rid.
Proof. apply String.eqb_eq. Qed.

Lemma aims_at_false (rid : string) (a : Attempt) :
  aims_at rid a = false <-> target a ≠ rid.
Proof. apply String.eqb_neq. Qed.

Lemma filter_aims_others (rid rid' : string) (l : list Attempt) :
  rid' ≠ rid ->
  List.filter (aims_at rid) (List.filter (fun b => negb (aims_at rid' b)) l)
  = List.filter (aims_at rid) l.
Proof.
  intros Hne. induction l as [| b rest IH]; [done |].
  simpl. destruct (aims_at rid' b) eqn:Hb'; simpl.
  - assert (aims_at rid b = false) as ->; [| done].
    apply aims_at_false. apply aims_at_true in Hb'. congruence.
  - by rewrite IH.
Qed.

Lemma filter_aims_same (rid : string) (l : list Attempt) :
  List.filter (aims_at rid) (List.filter (fun b => negb (aims_at rid b)) l) = [].
Proof.
  induction l as [| b rest IH]; [done |].
  simpl. destruct (aims_at rid b) eqn:Hb; simpl; [done |]. by rewrite Hb.
Qed.

Lemma find_none_filter (rid : string) (l : list Attempt) :
  List.filter (aims_at rid) l = [] -> List.find (aims_at rid) l = None.
Proof.
  induction l as [| b rest IH]; [done |].
  simpl. by destruct (aims_at rid b).
Qed.

Lemma find_some_aims (rid : string) (l : list Attempt) (a : Attempt) :
  List.find (aims_at rid) l = Some a -> target a = rid.
Proof.
  intros H. apply find_some in H as [_ H]. by apply aims_at_true.
Qed.

Lemma classify_terminal (o : AutomationOutcome) :
  classify o = Succeeded \/ classify o = Failed \/ classify o = PartiallyFailed.
Proof.
  destruct o as [outcomes | detail]; [| by right; left].
  rewrite classify_processed.
  destruct (forallb failed outcomes), (forallb ok outcomes); auto.
Qed.

Lemma classify_not_in_progress (o : AutomationOutcome) :
  classify o ≠ InProgress.
Proof. destruct (classify_terminal o) as [-> | [-> | ->]]; done. Qed.

Lemma request_single_flight (rid : string) (dry : bool) (e : engine) :
  single_flight e -> single_flight (fst (request rid dry e)).
Proof.
  intros Hinv.
  destruct (decide (state (get rid e) = InProgress)) as [Hbusy | Hfree].
  { by rewrite request_refused_in_progress. }
  destruct (resolve rid e) as [[r a] |] eqn:Hres.
  2: { by rewrite request_refused_not_automatable. }
  rewrite (request_started _ _ _ r a) by done. simpl.
  intros rid'. rewrite get_insert. unfold running. simpl.
  rewrite List.filter_app, length_app. simpl.
  fold (running rid' e). rewrite (Hinv rid').
  unfold aims_at at 1. simpl.
  destruct (decide (rid = rid')) as [<- | Hne].
  - rewrite String.eqb_refl. simpl. rewrite decide_False by done. done.
  - apply String.eqb_neq in Hne. by rewrite Hne.
Qed.

Lemma complete_single_flight (rid : string) (e : engine) :
  single_flight e -> single_flight (fst (complete rid e)).
Proof.
  intros Hinv. unfold complete.
  destruct (List.find (aims_at rid) (inFlight e)) as [a |] eqn:Hfind; [| done].
  simpl. intros rid'. rewrite get_insert. unfold running. simpl.
  destruct (decide (rid = rid')) as [<- | Hne].
  - rewrite filter_aims_same. simpl.
    rewrite decide_False; [done |]. apply classify_not_in_progress.
  - rewrite filter_aims_others by done. apply (Hinv rid').
Qed.

Lemma step_single_flight (ev : Event) (e : engine) :
  single_flight e -> single_flight (fst (step e ev)).
Proof.
  destruct ev as [rid dry | rid]; simpl.
  - apply request_single_flight.
  - apply complete_single_flight.
Qed.

Lemma run_cons (ev : Event) (evs : list Event) (e : engine) :
  run e (ev :: evs)
  = (fst (run (fst (step e ev)) evs),
     snd (step e ev) :: snd (run (fst (step e ev)) evs)).
Proof.
  simpl. destruct (step e ev) as [e1 r]. simpl.
  by destruct (run e1 evs).
Qed.

Lemma run_single_flight (evs : list Event) (e : engine) :
  single_flight e -> single_flight (fst (run e evs)).
Proof.
  revert e. induction evs as [| ev rest IH]; intros e Hinv; [done |].
  rewrite run_cons. simpl. apply IH. by apply step_single_flight.
Qed.

Lemma start_single_flight (reg : gmap string Automation)
    (recs : gmap string Recommendation) :
  single_flight (start reg recs).
Proof. intros rid. reflexivity. Qed.

Lemma resolve_after_alter (rid rid' : string) (e : engine)
    (t : gmap string ImplementationStatus)
    (h : gmap string (list ImplementationResult)) (l : list Attempt) :
  is_Some (resolve rid e) ->
  is_Some (resolve rid
             (mkEngine (registry e) (alter advance rid' (findings e)) t h l)).
Proof.
  unfold resolve. simpl. rewrite lookup_alter.
  case_decide as Heq; [subst rid' | done].
  destruct (findings e !! rid) as [r |]; simpl; [| by intros [? ?]].
  by destruct (registry e !! kind r).
Qed.

Lemma request_resolvable (rid : string) (dry : bool) (e : engine) :
  resolvable e -> resolvable (fst (request rid dry e)).
Proof.
  intros Hinv.
  destruct (decide (state (get rid e) = InProgress)) as [Hbusy | Hfree].
  { by rewrite request_refused_in_progress. }
  destruct (resolve rid e) as [[r a] |] eqn:Hres.
  2: { by rewrite request_refused_not_automatable. }
  rewrite (request_started _ _ _ r a) by done. simpl.
  intros rid'. rewrite get_insert.
  change (resolve rid' (mkEngine _ _ _ _ _)) with (resolve rid' e).
  case_decide as Heq.
  - subst rid'. intros _. by rewrite Hres.
  - apply Hinv.
Qed.

Lemma complete_resolvable (rid : string) (e : engine) :
  resolvable e -> resolvable (fst (complete rid e)).
Proof.
  intros Hinv. unfold complete.
  destruct (List.find (aims_at rid) (inFlight e)) as [a |] eqn:Hfind; [| done].
  simpl. intros rid'. rewrite get_insert.
  case_decide as Heq.
  - simpl. intros Hcls. by apply classify_not_in_progress in Hcls.
  - intros Hbusy. apply Hinv in Hbusy.
    destruct (negb (mode a) && bool_decide (classify (outcomeOf a) = Succeeded)).
    + by apply resolve_after_alter.
    + exact Hbusy.
Qed.

Lemma run_resolvable (evs : list Event) (e : engine) :
  resolvable e -> resolvable (fst (run e evs)).
Proof.
  revert e. induction evs as [| ev rest IH]; intros e Hinv; [done |].
  rewrite run_cons. simpl. apply IH.
  destruct ev as [rid dry | rid]; simpl.
  - by apply request_resolvable.
  - by apply complete_resolvable.
Qed.

Lemma start_resolvable (reg : gmap string Automation)
    (recs : gmap string Recommendation) :
  resolvable (start reg recs).
Proof. intros rid Hbusy. discriminate Hbusy. Qed.

Lemma run_registry (evs : list Event) (e : engine) :
  registry (fst (run e evs)) = registry e.
Proof.
  revert e. induction evs as [| ev rest IH]; intros e; [done |].
  rewrite run_cons. simpl. rewrite IH.
  destruct ev as [rid dry | rid]; simpl.
  - unfold request. case_decide; [done |].
    change (resolve rid (with_tracker _ e)) with (resolve rid e).
    by destruct (resolve rid e) as [[r a] |].
  - unfold complete. by destruct (List.find _ _).
Qed.

End Coordinator.

Section Requests.

Import Engine.

Lemma find_app_none (rid : string) (l k : list Attempt) :
  List.find (aims_at rid) l = None ->
  List.find (aims_at rid) (l ++ k) = List.find (aims_at rid) k.
Proof.
  induction l as [| b rest IH]; [done |].
  simpl. by destruct (aims_at rid b).
Qed.

Lemma reachable_single_flight (reg : gmap string Automation)
    (recs : gmap string Recommendation) (evs : list Event) :
  single_flight (fst (run (start reg recs) evs)).
Proof. apply run_single_flight, start_single_flight. Qed.

Lemma reachable_resolvable (reg : gmap string Automation)
    (recs : gmap string Recommendation) (evs : list Event) :
  resolvable (fst (run (start reg recs) evs)).
Proof. apply run_resolvable, start_resolvable. Qed.

Lemma complete_running (rid : string) (e : engine) (a : Attempt) :
  List.find (aims_at rid) (inFlight e) = Some a ->
  complete rid e
  = (mkEngine (registry e)
       (if negb (mode a) && bool_decide (classify (outcomeOf a) = Succeeded)
        then alter advance rid (findings e) else findings e)
       (<[rid := mkStatus (classify (outcomeOf a)) (Some (conclude a))]> (tracker e))
       (<[rid := (default [] (history e !! rid) ++ [conclude a])%list]> (history e))
       (List.filter (fun b => negb (aims_at rid b)) (inFlight e)),
     Finished (conclude a)).
Proof. intros Hfind. unfold complete. by rewrite Hfind. Qed.

(** C5: in every state the engine can reach, a request for a
    recommendation whose kind has no registered automation is refused
    with NotAutomatableError and leaves the engine as it was: no
    execution is started, and the implementation status of the
    recommendation is what it was before the request; for a
    recommendation never executed it is still Idle, with no entry in the
    tracker. *)
Theorem unregistered_kind_refused (reg : gmap string Automation)
    (recs : gmap string Recommendation) (evs : list Event)
    (rid : string) (dry : bool) (r : Recommendation) :
  let e := fst (run (start reg recs) evs) in
  findings e !! rid = Some r ->
  registry e !! kind r = None ->
  request rid dry e = (e, Refused NotAutomatableError)
  /\ implement rid dry e = (e, Refused NotAutomatableError)
  /\ get rid (fst (request rid dry e)) = get rid e
  /\ inFlight (fst (request rid dry e)) = inFlight e
  /\ running rid (fst (request rid dry e)) = 0%nat
  /\ (tracker e !! rid = None ->
      state (get rid (fst (request rid dry e))) = Idle
      /\ tracker (fst (request rid dry e)) !! rid = None).
Proof.
  intros e Hrec Hkind.
  assert (Hnone : resolve rid e = None).
  { unfold resolve. rewrite Hrec. simpl. by rewrite Hkind. }
  assert (Hfree : state (get rid e) ≠ InProgress).
  { intros Hbusy. apply (reachable_resolvable reg recs evs) in Hbusy.
    fold e in Hbusy. rewrite Hnone in Hbusy. by destruct Hbusy. }
  assert (Hreq := request_refused_not_automatable rid dry e Hfree Hnone).
  unfold implement. rewrite Hreq. simpl.
  split; [done |]. split; [done |]. split; [done |]. split; [done |].
  split.
  - assert (Hinv := reachable_single_flight reg recs evs). fold e in Hinv.
    rewrite (Hinv rid). by rewrite decide_False.
  - intros Hnever. split; [| done]. unfold get. by rewrite Hnever.
Qed.

(** A recommendation whose kind, rotate_keys, is not in the registry,
    requested while another recommendation is being remediated. *)
Lemma unregistered_kind_refused_witness :
  let e := fst (run Scenario.fresh [Request "r1" false]) in
  request "r3" false e = (e, Refused NotAutomatableError)
  /\ state (get "r3" (fst (request "r3" false e))) = Idle.
Proof.
  cbn zeta.
  destruct (unregistered_kind_refused
              {[ "stop_idle_instances" := Scenario.stopIdle ]}
              (<["r1" := Scenario.r1]> (<["r2" := Scenario.r2]> {[ "r3" := Scenario.r3 ]}))
              [Request "r1" false] "r3" false Scenario.r3)
    as (Hreq & _ & _ & _ & _ & Hidle).
  - vm_compute. reflexivity.
  - vm_compute. reflexivity.
  - split; [exact Hreq |]. apply Hidle. vm_compute. reflexivity.
Defined.

(** C3: in every state the engine can reach, at most one execution is
    under way for a recommendation, and one is under way exactly when
    its state is InProgress; a request that arrives in that state is
    refused with AlreadyInProgressError and changes nothing, so it
    starts no execution; hence of two requests for the same automatable
    recommendation, the second arriving while the first is running, the
    first ends with a terminal result and the second with
    AlreadyInProgressError, and no execution is left running. *)
Theorem single_flight_per_recommendation (reg : gmap string Automation)
    (recs : gmap string Recommendation) (evs : list Event) (rid : string) :
  let e := fst (run (start reg recs) evs) in
  (running rid e <= 1)%nat
  /\ (running rid e = 1%nat <-> state (get rid e) = InProgress)
  /\ (state (get rid e) = InProgress ->
      forall dry, request rid dry e = (e, Refused AlreadyInProgressError))
  /\ (state (get rid e) ≠ InProgress ->
      is_Some (resolve rid e) ->
      forall first second : bool,
      exists e' result,
        run e [Request rid first; Request rid second; Complete rid]
        = (e', [Started; Refused AlreadyInProgressError; Finished result])
        /\ dryRun result = first
        /\ state (get rid e') ∈ [Succeeded; Failed; PartiallyFailed]
        /\ lastResult (get rid e') = Some result
        /\ running rid e' = 0%nat).
Proof.
  intros e.
  assert (Hinv := reachable_single_flight reg recs evs). fold e in Hinv.
  split; [| split; [| split]].
  - rewrite (Hinv rid). case_decide; lia.
  - rewrite (Hinv rid). case_decide; split; (done || lia).
  - intros Hbusy dry. by apply request_refused_in_progress.
  - intros Hfree [[r a] Hres] first second.
    assert (Hidle : List.find (aims_at rid) (inFlight e) = None).
    { apply find_none_filter. apply length_zero_iff_nil.
      fold (running rid e). rewrite (Hinv rid). by rewrite decide_False. }
    set (att := mkAttempt rid r a first).
    set (e1 := mkEngine (registry e) (findings e)
                 (<[rid := mkStatus InProgress (lastResult (get rid e))]> (tracker e))
                 (history e) (inFlight e ++ [att])).
    assert (H1 : request rid first e = (e1, Started)).
    { by apply request_started. }
    assert (Hbusy : state (get rid e1) = InProgress).
    { unfold e1. rewrite get_insert. by rewrite decide_True. }
    assert (H2 : request rid second e1 = (e1, Refused AlreadyInProgressError)).
    { by apply request_refused_in_progress. }
    assert (Hfind : List.find (aims_at rid) (inFlight e1) = Some att).
    { unfold e1. simpl. rewrite find_app_none by done.
      simpl. unfold aims_at. simpl. by rewrite String.eqb_refl. }
    assert (H3 := complete_running rid e1 att Hfind).
    eexists. exists (conclude att).
    split.
    { rewrite run_cons. simpl step. rewrite H1. cbn [fst snd].
      rewrite run_cons. simpl step. rewrite H2. cbn [fst snd].
      rewrite run_cons. simpl step. rewrite H3. cbn [fst snd run].
      reflexivity. }
    split; [reflexivity |].
    rewrite get_insert, decide_True by done. simpl.
    split.
    { destruct (classify_terminal (outcomeOf att)) as [-> | [-> | ->]];
        set_solver. }
    split; [reflexivity |].
    unfold running. simpl. by rewrite filter_aims_same.
Qed.

(** Two requests for recommendation r1, the second arriving before the
    first has finished. *)
Lemma single_flight_per_recommendation_witness :
  exists e' result,
    run Scenario.fresh [Request "r1" false; Request "r1" true; Complete "r1"]
    = (e', [Started; Refused AlreadyInProgressError; Finished result])
    /\ dryRun result = false
    /\ running "r1" e' = 0%nat.
Proof.
  destruct (single_flight_per_recommendation
              {[ "stop_idle_instances" := Scenario.stopIdle ]}
              (<["r1" := Scenario.r1]> (<["r2" := Scenario.r2]> {[ "r3" := Scenario.r3 ]}))
              [] "r1") as (_ & _ & _ & Htwo).
  destruct (Htwo ltac:(discriminate) ltac:(vm_compute; eauto) false true)
    as (e' & result & Hrun & Hmode & _ & _ & Hnone).
  exists e', result. split; [exact Hrun |]. split; [exact Hmode | exact Hnone].
Defined.

End Requests.

Section Savings.

Import Engine.

Lemma savings_dry_run (estimate : Qc) (resources : list string)
    (o : AutomationOutcome) :
  savings true estimate resources o = 0%Qc.
Proof. reflexivity. Qed.

Lemma savings_succeeded (estimate : Qc) (resources : list string)
    (o : AutomationOutcome) :
  classify o = Succeeded -> savings false estimate resources o = estimate.
Proof. intros H. unfold savings. by rewrite H. Qed.

(** In the engine a dry run realises no savings and leaves every
    recommendation as it was. *)
Lemma dry_run_inert (rid : string) (e : engine) (a : Attempt) :
  List.find (aims_at rid) (inFlight e) = Some a ->
  mode a = true ->
  findings (fst (complete rid e)) = findings e
  /\ snd (complete rid e) = Finished (conclude a)
  /\ savingsRealized (conclude a) = 0%Qc
  /\ dryRun (conclude a) = true.
Proof.
  intros Hfind Hdry. rewrite (complete_running rid e a Hfind).
  simpl. by rewrite Hdry.
Qed.

(** C2: when a real run ends classified PartiallyFailed, the result the
    engine stores has savingsRealized equal to the estimated savings per
    month times the number of resources that succeeded over the number
    of affected resources, and the state of the recommendation is
    PartiallyFailed. *)
Theorem partial_failure_prorates (rid : string) (e : engine) (a : Attempt) :
  List.find (aims_at rid) (inFlight e) = Some a ->
  mode a = false ->
  classify (outcomeOf a) = PartiallyFailed ->
  exists result,
    snd (complete rid e) = Finished result
    /\ savingsRealized result
       = (estimatedSavingsPerMonth (subject a)
          * (Qc_of_nat (length (List.filter ok (reported (outcomeOf a))))
             / Qc_of_nat (length (affectedResources (subject a)))))%Qc
    /\ dryRun result = false
    /\ state (get rid (fst (complete rid e))) = PartiallyFailed
    /\ lastResult (get rid (fst (complete rid e))) = Some result.
Proof.
  intros Hfind Hreal Hcls.
  rewrite (complete_running rid e a Hfind). cbn [fst snd].
  exists (conclude a). split; [reflexivity |].
  rewrite get_insert, decide_True by done. simpl.
  split.
  - unfold savings. by rewrite Hreal, Hcls.
  - by rewrite Hcls, Hreal.
Qed.

(** The example of the specification: estimated savings of 100, four
    affected resources of which three succeed, a real run: 75. *)
Lemma partial_failure_prorates_witness :
  let e := fst (request "r2" false Scenario.fresh) in
  exists result,
    snd (complete "r2" e) = Finished result
    /\ savingsRealized result = Qc_of_Z 75
    /\ state (get "r2" (fst (complete "r2" e))) = PartiallyFailed.
Proof.
  cbn zeta.
  destruct (partial_failure_prorates "r2"
              (fst (request "r2" false Scenario.fresh))
              (mkAttempt "r2" Scenario.r2 Scenario.stopIdle false))
    as (result & Hdone & Hsaved & _ & Hstate & _).
  - vm_compute. reflexivity.
  - reflexivity.
  - vm_compute. reflexivity.
  - exists result. split; [exact Hdone |]. split; [| exact Hstate].
    rewrite Hsaved. apply Qc_is_canon. vm_compute. reflexivity.
Defined.

End Savings.

Section CardButtons.

Import Card.

(** X15: While a call is pending both buttons of the card are disabled, and
    every way the call can end enables them again. *)
Lemma buttons_disabled_while_pending (check_id : string) (dryRun : bool)
    (reply : settled) (st : Card.state) :
  clickable pending = false
  /\ clickable (card (implementRecommendation check_id dryRun reply st)) = true.
Proof.
  split; [reflexivity |].
  unfold implementRecommendation.
  destruct reply as [result | error].
  - destruct (member result "success"), (member result "savings");
      try reflexivity;
      by destruct (handleError typeError result).
  - by destruct (handleError error JNull).
Qed.

End CardButtons.

(** * Further properties of the front end *)

Section ApiOptions.

Import Api.

(** X1: The default parameter covers an omitted options argument only: of
    all values, [null] alone makes the two POST helpers throw, and it
    does so before any request is built. *)
Theorem post_helpers_throw_only_on_null (name : string) (options : jsval) :
  (Api.implementRecommendation name options = None <-> options = JNull)
  /\ (Api.executeAutomation name options = None <-> options = JNull).
Proof.
  split; (split; [by destruct options | by intros ->]).
Qed.


End ApiOptions.

Section Filters.

Import RecList.

Lemma eqb_false_ne (a b : string) : String.eqb a b = false <-> a ≠ b.
Proof. apply String.eqb_neq. Qed.

(** What the predicate of the filter accepts, spelled out. *)
Lemma shown_spec (st : state) (rec : recommendation) :
  shown st rec = true <->
    (statusFilter st = "" \/ status rec = statusFilter st)
    /\ (categoryFilter st = "" \/ category rec = categoryFilter st)
    /\ (implementationFilter st = "auto" -> can_implement rec = true)
    /\ (implementationFilter st = "manual" -> can_implement rec = false).
Proof.
  unfold shown, nonempty.
  destruct (String.eqb_spec (statusFilter st) "") as [Hs | Hs];
    destruct (String.eqb_spec (status rec) (statusFilter st)) as [Hs' | Hs'];
    destruct (String.eqb_spec (categoryFilter st) "") as [Hc | Hc];
    destruct (String.eqb_spec (category rec) (categoryFilter st)) as [Hc' | Hc'];
    destruct (String.eqb_spec (implementationFilter st) "auto") as [Ha | Ha];
    destruct (String.eqb_spec (implementationFilter st) "manual") as [Hm | Hm];
    destruct (can_implement rec); simpl;
    try (rewrite Ha in Hm; discriminate Hm);
    (split; [intros H; try discriminate H; repeat split; auto; try (intros; congruence)
            | intros (H1 & H2 & H3 & H4); try reflexivity;
              try (destruct H1; congruence); try (destruct H2; congruence);
              try (specialize (H3 Ha); congruence);
              try (specialize (H4 Hm); congruence)]).
Qed.

Lemma filtered_shown (st : state) (rec : recommendation) :
  rec ∈ filteredRecommendations st <->
    rec ∈ recommendations st /\ shown st rec = true.
Proof.
  unfold filteredRecommendations.
  by rewrite list_elem_of_In, filter_In, <- list_elem_of_In.
Qed.

(** X3: A recommendation is displayed exactly when it is in the list and
    passes every filter that is set: an empty status or category filter
    lets everything pass, auto keeps the implementable ones, manual the
    others, and any other value of the implementation filter filters
    nothing. *)
Theorem filtered_membership (st : state) (rec : recommendation) :
  rec ∈ filteredRecommendations st <->
    rec ∈ recommendations st
    /\ (statusFilter st = "" \/ status rec = statusFilter st)
    /\ (categoryFilter st = "" \/ category rec = categoryFilter st)
    /\ (implementationFilter st = "auto" -> can_implement rec = true)
    /\ (implementationFilter st = "manual" -> can_implement rec = false).
Proof.
  by rewrite filtered_shown, shown_spec.
Qed.

(** X4: With the status and category filters empty and the implementation
    filter on neither auto nor manual, every recommendation is
    displayed, in the order of the list. *)
Theorem no_filter_shows_all (st : state) :
  statusFilter st = "" ->
  categoryFilter st = "" ->
  implementationFilter st ≠ "auto" ->
  implementationFilter st ≠ "manual" ->
  filteredRecommendations st = recommendations st.
Proof.
  intros Hs Hc Ha Hm. unfold filteredRecommendations.
  induction (recommendations st) as [| rec rest IH]; [done |].
  simpl. rewrite IH.
  assert (shown st rec = true) as ->; [| done].
  apply shown_spec. repeat split; auto; intros; congruence.
Qed.

Lemma no_filter_shows_all_witness :
  filteredRecommendations Scenario.listed = recommendations Scenario.listed.
Proof.
  apply no_filter_shows_all; (reflexivity || discriminate).
Defined.

Lemma shown_auto_manual (byStatus byCategory : string) (st : state)
    (rec : recommendation) :
  shown (setFilters byStatus byCategory "" st) rec
  = shown (setFilters byStatus byCategory "auto" st) rec
    || shown (setFilters byStatus byCategory "manual" st) rec.
Proof.
  unfold shown, setFilters. simpl.
  destruct (nonempty byStatus && negb (String.eqb (status rec) byStatus)),
           (nonempty byCategory && negb (String.eqb (category rec) byCategory));
    try done.
  by destruct (can_implement rec).
Qed.

Lemma shown_auto_manual_disjoint (byStatus byCategory : string) (st : state)
    (rec : recommendation) :
  shown (setFilters byStatus byCategory "auto" st) rec
  && shown (setFilters byStatus byCategory "manual" st) rec = false.
Proof.
  unfold shown, setFilters. simpl.
  destruct (nonempty byStatus && negb (String.eqb (status rec) byStatus)),
           (nonempty byCategory && negb (String.eqb (category rec) byCategory));
    try done.
  by destruct (can_implement rec).
Qed.

(** X5: Whatever the status and category filters, the choices
    Auto-Implementable and Manual Only split the list displayed under
    All in two: every displayed recommendation appears under exactly one
    of them. *)
Theorem auto_manual_partition (byStatus byCategory : string) (st : state) :
  (length (filteredRecommendations (setFilters byStatus byCategory "auto" st))
   + length (filteredRecommendations (setFilters byStatus byCategory "manual" st))
   = length (filteredRecommendations (setFilters byStatus byCategory "" st)))%nat
  /\ (forall rec,
        rec ∈ filteredRecommendations (setFilters byStatus byCategory "auto" st) ->
        rec ∉ filteredRecommendations (setFilters byStatus byCategory "manual" st)).
Proof.
  split.
  - unfold filteredRecommendations. simpl.
    induction (recommendations st) as [| rec rest IH]; [done |].
    simpl. rewrite shown_auto_manual.
    pose proof (shown_auto_manual_disjoint byStatus byCategory st rec) as Hd.
    destruct (shown (setFilters byStatus byCategory "auto" st) rec),
             (shown (setFilters byStatus byCategory "manual" st) rec);
      simpl in *; try discriminate Hd; lia.
  - intros rec Ha Hm.
    apply filtered_shown in Ha as [_ Ha]. apply filtered_shown in Hm as [_ Hm].
    pose proof (shown_auto_manual_disjoint byStatus byCategory st rec) as Hd.
    rewrite Ha, Hm in Hd. discriminate Hd.
Qed.

Lemma auto_manual_partition_witness :
  Scenario.idleInstances
    ∉ filteredRecommendations (setFilters "" "" "manual" Scenario.listed).
Proof.
  apply (auto_manual_partition "" "" Scenario.listed).
  apply filtered_shown. split; [apply list_elem_of_here | reflexivity].
Defined.

(** X6: The three counters of the statistics cards: a recommendation counts
    as a warning or as an error but not as both, so the two together
    never exceed the number of recommendations; the number of
    implementable ones is the length of the list displayed under
    Auto-Implementable with no other filter. *)
Theorem counters_bounded (st : state) :
  (warningCount st + errorCount st <= length (recommendations st))%nat
  /\ (autoImplementableCount st <= length (recommendations st))%nat
  /\ autoImplementableCount st
     = length (filteredRecommendations (setFilters "" "" "auto" st)).
Proof.
  unfold warningCount, errorCount, autoImplementableCount, filteredRecommendations.
  simpl. split; [| split].
  - induction (recommendations st) as [| rec rest IH]; [done |].
    simpl.
    destruct (String.eqb_spec (status rec) "warning") as [Hw | Hw];
      destruct (String.eqb_spec (status rec) "error") as [He | He];
      simpl; try lia.
    rewrite Hw in He. discriminate He.
  - apply List.filter_length_le.
  - induction (recommendations st) as [| rec rest IH]; [done |].
    simpl. unfold shown at 1. simpl.
    destruct (can_implement rec); simpl; by rewrite IH.
Qed.

End Filters.

Section Completion.

Import RecList.

Local Open Scope list_scope.

Lemma findIndex_first {A : Type} (p : A -> bool) (before after : list A) (x : A) :
  Forall (fun y => p y = false) before ->
  p x = true ->
  findIndex p (before ++ x :: after) = Some (length before).
Proof.
  intros Hbefore Hx. induction Hbefore as [| y rest Hy _ IH]; simpl.
  - by rewrite Hx.
  - by rewrite Hy, IH.
Qed.

Lemma findIndex_absent {A : Type} (p : A -> bool) (l : list A) :
  Forall (fun y => p y = false) l -> findIndex p l = None.
Proof.
  intros Hl. induction Hl as [| y rest Hy _ IH]; simpl; [done |].
  by rewrite Hy, IH.
Qed.

Lemma alter_middle {A : Type} (f : A -> A) (before after : list A) (x : A) :
  alter f (length before) (before ++ x :: after) = before ++ f x :: after.
Proof.
  induction before as [| y rest IH]; simpl; [done |]. f_equal. exact IH.
Qed.

Lemma sum_alter_status (s : string) (i : nat) (recs : list recommendation)
    (total : float) :
  sumFrom total (alter (with_status s) i recs) = sumFrom total recs.
Proof.
  revert i total.
  induction recs as [| rec rest IH]; intros [| i] total; simpl; try done.
  apply IH.
Qed.

Lemma ids_alter_status (s : string) (i : nat) (recs : list recommendation) :
  map check_id (alter (with_status s) i recs) = map check_id recs.
Proof.
  revert i. induction recs as [| rec rest IH]; intros [| i]; simpl; try done.
  f_equal. apply IH.
Qed.

Lemma totalSavings_sum (st : state) :
  totalSavings st = sumOfSavings (recommendations st).
Proof. unfold totalSavings. by rewrite reduce_from. Qed.

Lemma completion_keeps_catalogue (result : Card.completed) (st : state) :
  let st' := handleImplementationCompleted result st in
  totalSavings st' = totalSavings st
  /\ map check_id (recommendations st') = map check_id (recommendations st)
  /\ statusFilter st' = statusFilter st
  /\ categoryFilter st' = categoryFilter st
  /\ implementationFilter st' = implementationFilter st.
Proof.
  cbn zeta. rewrite !totalSavings_sum. unfold handleImplementationCompleted.
  simpl. destruct (findIndex _ _) as [i |]; [| done].
  unfold sumOfSavings. by rewrite sum_alter_status, ids_alter_status.
Qed.

(** X7: No sequence of implementation-completed events changes the total
    savings of the header, the identifiers of the listed recommendations
    and their order, or the filters: a completed implementation, even a
    real and successful one, leaves the estimated savings of its
    recommendation in the total. *)
Theorem completions_keep_total (results : list Card.completed) (st : state) :
  let st' := replay results st in
  totalSavings st' = totalSavings st
  /\ map check_id (recommendations st') = map check_id (recommendations st)
  /\ statusFilter st' = statusFilter st
  /\ categoryFilter st' = categoryFilter st
  /\ implementationFilter st' = implementationFilter st.
Proof.
  cbn zeta. revert st. induction results as [| r rest IH]; intros st; [done |].
  change (replay (r :: rest) st)
    with (replay rest (handleImplementationCompleted r st)).
  destruct (IH (handleImplementationCompleted r st)) as (H1 & H2 & H3 & H4 & H5).
  destruct (completion_keeps_catalogue r st) as (K1 & K2 & K3 & K4 & K5).
  cbn zeta in *. rewrite H1, H2, H3, H4, H5. done.
Qed.

Lemma first_match_rewritten (result : Card.completed) (st : state)
    (before after : list recommendation) (rec : recommendation) :
  recommendations st = before ++ rec :: after ->
  check_id rec = Card.checkId result ->
  Forall (fun r => check_id r ≠ Card.checkId result) before ->
  recommendations (handleImplementationCompleted result st)
  = before
    ++ with_status (if truthy (Card.success result) then "ok" else "error") rec
    :: after.
Proof.
  intros Hrecs Hid Hbefore. unfold handleImplementationCompleted. simpl.
  rewrite Hrecs.
  rewrite (findIndex_first _ before after rec).
  - apply alter_middle.
  - eapply Forall_impl; [exact Hbefore |]. intros r Hr. simpl in Hr.
    by apply String.eqb_neq.
  - by apply String.eqb_eq.
Qed.

(** X8: The handler rewrites the status of the first recommendation that
    carries the identifier of the event, to ok when the success of the
    event is truthy and to error otherwise, and of that one only: the
    recommendations before and after it, later ones with the same
    identifier included, stay as they are, as do all other fields of the
    one rewritten. *)
Theorem completion_updates_first_match (result : Card.completed) (st : state)
    (before after : list recommendation) (rec : recommendation) :
  recommendations st = before ++ rec :: after ->
  check_id rec = Card.checkId result ->
  Forall (fun r => check_id r ≠ Card.checkId result) before ->
  recommendations (handleImplementationCompleted result st)
  = before
    ++ with_status (if truthy (Card.success result) then "ok" else "error") rec
    :: after.
Proof.
  intros Hrecs Hid Hbefore. unfold handleImplementationCompleted. simpl.
  rewrite Hrecs.
  assert (Hfound : findIndex
                     (fun r => String.eqb (check_id r) (Card.checkId result))
                     (before ++ rec :: after) = Some (length before)).
  { apply findIndex_first.
    - eapply Forall_impl; [exact Hbefore |]. intros r Hr. simpl in Hr.
      by apply String.eqb_neq.
    - by apply String.eqb_eq. }
  rewrite Hfound. apply alter_middle.
Qed.

Lemma completion_updates_first_match_witness :
  recommendations
    (handleImplementationCompleted
       (Card.mkCompleted "s3-versioning" JUndefined JUndefined) Scenario.listed)
  = [Scenario.idleInstances; with_status "error" Scenario.unversionedBucket].
Proof.
  apply (completion_updates_first_match
           (Card.mkCompleted "s3-versioning" JUndefined JUndefined)
           Scenario.listed [Scenario.idleInstances] [] Scenario.unversionedBucket).
  - reflexivity.
  - reflexivity.
  - apply Forall_cons. split; [discriminate | apply Forall_nil_2].
Defined.

(** X9: An event for an identifier that no listed recommendation carries
    changes no recommendation, yet it is recorded in the summary of
    recent implementations like any other. *)
Theorem completion_unknown_id (result : Card.completed) (st : state) :
  Forall (fun r => check_id r ≠ Card.checkId result) (recommendations st) ->
  recommendations (handleImplementationCompleted result st) = recommendations st
  /\ head (implementationSummary (handleImplementationCompleted result st))
     = Some (summarize result).
Proof.
  intros Hnone. split.
  - unfold handleImplementationCompleted. simpl.
    rewrite findIndex_absent; [done |].
    eapply Forall_impl; [exact Hnone |]. intros r Hr. simpl in Hr.
    by apply String.eqb_neq.
  - by rewrite summary_after.
Qed.

Lemma completion_unknown_id_witness :
  recommendations
    (handleImplementationCompleted
       (Card.mkCompleted "rds-idle" (JBool true) JUndefined) Scenario.listed)
  = recommendations Scenario.listed.
Proof.
  apply completion_unknown_id.
  repeat (apply Forall_cons; split; [discriminate |]). apply Forall_nil_2.
Defined.

Lemma warning_count_app (before after : list recommendation) (st : state) :
  warningCount (withRecommendations (before ++ after) st)
  = (warningCount (withRecommendations before st)
     + warningCount (withRecommendations after st))%nat.
Proof.
  unfold warningCount. simpl. by rewrite List.filter_app, length_app.
Qed.

(** X10: When the first recommendation with the identifier of the event is
    listed as a warning, handling the event takes exactly one off the
    Warnings counter, whether the implementation succeeded or not, and
    adds one to the Errors counter exactly when it did not succeed. *)
Theorem completion_moves_counters (result : Card.completed) (st : state)
    (before after : list recommendation) (rec : recommendation) :
  recommendations st = before ++ rec :: after ->
  check_id rec = Card.checkId result ->
  Forall (fun r => check_id r ≠ Card.checkId result) before ->
  status rec = "warning" ->
  let st' := handleImplementationCompleted result st in
  S (warningCount st') = warningCount st
  /\ errorCount st'
     = (if truthy (Card.success result) then errorCount st
        else S (errorCount st)).
Proof.
  intros Hrecs Hid Hbefore Hwarn. cbn zeta.
  pose proof (first_match_rewritten result st before after rec
                Hrecs Hid Hbefore) as Hafter.
  unfold warningCount, errorCount. rewrite Hafter, Hrecs.
  rewrite !List.filter_app, !length_app. simpl. rewrite Hwarn. simpl.
  destruct (truthy (Card.success result)); simpl; lia.
Qed.

Lemma completion_moves_counters_witness :
  S (warningCount
       (handleImplementationCompleted
          (Card.mkCompleted "ec2-idle" (JBool true) (JNum 0%Qc)) Scenario.listed))
  = warningCount Scenario.listed.
Proof.
  apply (completion_moves_counters
           (Card.mkCompleted "ec2-idle" (JBool true) (JNum 0%Qc))
           Scenario.listed [] [Scenario.unversionedBucket] Scenario.idleInstances).
  - reflexivity.
  - reflexivity.
  - apply Forall_nil_2.
  - reflexivity.
Defined.

End Completion.

Section CardOutcome.

Import Card.

Lemma implementRecommendation_resolved (check_id : string) (dryRun : bool)
    (result : jsval) (st : Card.state) :
  implementRecommendation check_id dryRun (Resolved result) st
  = if nullish result
    then mkEffect
           (mkState false
              (JObj [("success", JBool false);
                     ("message", JStr "Implementation failed")]))
           (Api.implementRecommendation check_id (JObj [("dryRun", JBool dryRun)]))
           None false
    else mkEffect (mkState false result)
           (Api.implementRecommendation check_id (JObj [("dryRun", JBool dryRun)]))
           (Some (mkCompleted check_id (get_prop result "success")
                              (get_prop result "savings")))
           false.
Proof.
  unfold implementRecommendation, member. by destruct (nullish result).
Qed.

Lemma implementRecommendation_rejected (check_id : string) (dryRun : bool)
    (error : jsval) (st : Card.state) :
  implementRecommendation check_id dryRun (Rejected error) st
  = if nullish error
    then mkEffect (mkState false JNull)
           (Api.implementRecommendation check_id (JObj [("dryRun", JBool dryRun)]))
           None true
    else mkEffect
           (mkState false
              (JObj [("success", JBool false);
                     ("message",
                      js_or (opt_member (opt_member (get_prop error "response") "data")
                                        "detail")
                            (JStr "Implementation failed"))]))
           (Api.implementRecommendation check_id (JObj [("dryRun", JBool dryRun)]))
           None false.
Proof.
  unfold implementRecommendation, handleError, member.
  by destruct (nullish error).
Qed.

(** X11: An exception leaves implementRecommendation in one case only: the
    request was rejected with null or undefined, on which the catch
    block itself throws.  The card is then left without a result, with
    the buttons enabled again, and nothing is emitted. *)
Theorem exception_escapes_only_on_nullish_rejection (check_id : string)
    (dryRun : bool) (reply : settled) (st : Card.state) :
  let e := implementRecommendation check_id dryRun reply st in
  (uncaught e = true <-> exists error, reply = Rejected error /\ nullish error = true)
  /\ (uncaught e = true ->
      card e = mkState false JNull /\ emitted e = None).
Proof.
  cbn zeta. destruct reply as [result | error].
  - rewrite implementRecommendation_resolved.
    destruct (nullish result); simpl;
      (split; [split; [done | by intros (? & ? & ?)] | done]).
  - rewrite implementRecommendation_rejected.
    destruct (nullish error) eqn:Herr; simpl.
    + split; [| done]. split; [| done]. intros _. by exists error.
    + split; [| done]. split; [done |].
      intros (error' & Heq & Hnull). injection Heq as <-. congruence.
Qed.

Lemma exception_escapes_only_on_nullish_rejection_witness :
  card (implementRecommendation "ec2-idle" false (Rejected JUndefined) pending)
  = mkState false JNull.
Proof.
  apply (exception_escapes_only_on_nullish_rejection "ec2-idle" false
           (Rejected JUndefined) pending).
  reflexivity.
Defined.

(** X12: The colour of the result box after a call.  A rejected request and
    a reply without a body give the red box; a reply with a truthy body
    gives the green box when its success is truthy and the red one
    otherwise; a reply whose body is falsy without being null or
    undefined (an empty string, 0, false) gives no box at all, although
    the completion event is emitted. *)
Theorem result_box_after_call (check_id : string) (dryRun : bool)
    (st : Card.state) (v : jsval) :
  (nullish v = false ->
   resultClasses (card (implementRecommendation check_id dryRun (Rejected v) st))
   = "bg-red-50 border border-red-200")
  /\ resultClasses (card (implementRecommendation check_id dryRun (Resolved v) st))
     = (if nullish v then "bg-red-50 border border-red-200"
        else if negb (truthy v) then ""
        else if truthy (get_prop v "success")
             then "bg-green-50 border border-green-200"
             else "bg-red-50 border border-red-200")
  /\ (nullish v = false -> truthy v = false ->
      emitted (implementRecommendation check_id dryRun (Resolved v) st)
      = Some (mkCompleted check_id JUndefined JUndefined)).
Proof.
  split; [| split].
  - intros Hv. rewrite implementRecommendation_rejected, Hv. reflexivity.
  - rewrite implementRecommendation_resolved.
    destruct (nullish v); [reflexivity |]. reflexivity.
  - intros Hv Hfalsy. rewrite implementRecommendation_resolved, Hv. simpl.
    by destruct v.
Qed.

(** A reply with an empty body, as axios delivers it: an empty string. *)
Lemma result_box_after_call_witness :
  emitted (implementRecommendation "ec2-idle" false (Resolved (JStr "")) pending)
  = Some (mkCompleted "ec2-idle" JUndefined JUndefined).
Proof.
  apply (result_box_after_call "ec2-idle" false pending (JStr "")); reflexivity.
Defined.

End CardOutcome.

Section CardAndList.

Import RecList.

(** X13: The list cannot tell a dry run from a real run: for the same reply
    of the server the card ends in the same state and the list handles
    the same event, so both leave the same recommendations and the same
    summary; only the dry_run field of the request differs. *)
Theorem list_blind_to_mode (rec : recommendation) (reply : settled)
    (cst : Card.state) (st : state) :
  implementFromCard rec true reply cst st
  = implementFromCard rec false reply cst st
  /\ Card.emitted (Card.implementRecommendation (check_id rec) true reply cst)
     = Card.emitted (Card.implementRecommendation (check_id rec) false reply cst)
  /\ Card.sent (Card.implementRecommendation (check_id rec) true reply cst)
     ≠ Card.sent (Card.implementRecommendation (check_id rec) false reply cst).
Proof.
  unfold implementFromCard. destruct reply as [result | error].
  - rewrite !implementRecommendation_resolved.
    destruct (nullish result); simpl; repeat split; try done.
  - rewrite !implementRecommendation_rejected.
    destruct (nullish error); simpl; repeat split; try done.
Qed.

(** X14: A reply that carries a body but no truthy success, be it an object
    without that property or an empty body, counts as a failure:
    wherever the recommendation of the card stands in the list, no
    earlier one carrying its identifier, it is marked error, the
    recommendations before and after it stay as they are, and the
    summary records Implementation failed.  A request that is rejected,
    in contrast, changes neither the list nor the summary. *)
Theorem reply_without_success_marks_error (rec : recommendation)
    (before after : list recommendation) (dryRun : bool) (result : jsval)
    (cst : Card.state) (st : state) :
  nullish result = false ->
  truthy (get_prop result "success") = false ->
  Forall (fun r => check_id r ≠ check_id rec) before ->
  let handled :=
    snd (implementFromCard rec dryRun (Resolved result) cst
           (withRecommendations (before ++ rec :: after)%list st)) in
  recommendations handled = (before ++ with_status "error" rec :: after)%list
  /\ head (implementationSummary handled)
     = Some (mkSummary (check_id rec) "Implementation failed"
               (js_or (get_prop result "savings") (JNum 0%Qc)))
  /\ (forall error,
        snd (implementFromCard rec dryRun (Rejected error) cst st) = st).
Proof.
  intros Hres Hfail Hbefore. cbn zeta. unfold implementFromCard.
  rewrite implementRecommendation_resolved, Hres.
  cbn [Card.card Card.emitted snd]. split; [| split].
  - rewrite (first_match_rewritten _ _ before after rec); try done.
    simpl. by rewrite Hfail.
  - rewrite summary_after. unfold summarize. simpl. by rewrite Hfail.
  - intros error. rewrite implementRecommendation_rejected.
    by destruct (nullish error).
Qed.

(** The card of the second recommendation of the list, answered with an
    object that has no success property. *)
Lemma reply_without_success_marks_error_witness :
  recommendations
    (snd (implementFromCard Scenario.idleInstances false (Resolved (JObj []))
            Card.pending
            (withRecommendations
               [Scenario.unversionedBucket; Scenario.idleInstances;
                Scenario.idleInstances]
               initial)))
  = [Scenario.unversionedBucket; with_status "error" Scenario.idleInstances;
     Scenario.idleInstances].
Proof.
  apply (reply_without_success_marks_error Scenario.idleInstances
           [Scenario.unversionedBucket] [Scenario.idleInstances] false (JObj [])
           Card.pending initial).
  - reflexivity.
  - reflexivity.
  - apply Forall_cons. split; [discriminate | apply Forall_nil_2].
Defined.

End CardAndList.

Section HealthDisplay.

Lemma healthStatusText_cases (st : App.state) :
  App.healthStatusText st
  = match App.healthStatus st with
    | JStr s => if String.eqb s "healthy" then "Healthy"
                else if String.eqb s "unhealthy" then "Unhealthy"
                else "Unknown"
    | _ => "Unknown"
    end.
Proof.
  unfold App.healthStatusText.
  destruct (App.healthStatus st) as [| | | | s |]; try reflexivity.
  repeat (destruct s as [| [[] [] [] [] [] [] [] []] s]; try reflexivity).
Qed.

Lemma healthStatusClass_cases (st : App.state) :
  App.healthStatusClass st
  = match App.healthStatus st with
    | JStr s => if String.eqb s "healthy" then "bg-green-500"
                else if String.eqb s "unhealthy" then "bg-red-500"
                else "bg-yellow-500"
    | _ => "bg-yellow-500"
    end.
Proof.
  unfold App.healthStatusClass.
  destruct (App.healthStatus st) as [| | | | s |]; try reflexivity.
  repeat (destruct s as [| [[] [] [] [] [] [] [] []] s]; try reflexivity).
Qed.

(** X16: The header reads Healthy, on green, exactly when the stored status
    is the string healthy, and Unhealthy, on red, exactly when it is the
    string unhealthy; any other value, of whatever type or
    capitalisation, reads Unknown on yellow, and these are the only
    three displays.  The connection reads Connected exactly when the
    stored aws_connection is truthy and Disconnected otherwise,
    independently of the status. *)
Theorem health_indicator_exact (st : App.state) :
  (App.healthStatusText st = "Healthy" <-> App.healthStatus st = JStr "healthy")
  /\ (App.healthStatusText st = "Unhealthy"
      <-> App.healthStatus st = JStr "unhealthy")
  /\ (App.healthStatusClass st = "bg-green-500"
      <-> App.healthStatusText st = "Healthy")
  /\ (App.healthStatusClass st = "bg-red-500"
      <-> App.healthStatusText st = "Unhealthy")
  /\ (App.healthStatusClass st = "bg-yellow-500"
      <-> App.healthStatusText st = "Unknown")
  /\ (App.awsConnectionText st = "Connected"
      <-> truthy (App.awsConnection st) = true)
  /\ (App.healthStatusText st = "Unknown"
      <-> App.healthStatus st ≠ JStr "healthy"
          /\ App.healthStatus st ≠ JStr "unhealthy")
  /\ (App.healthStatus st ≠ JStr "healthy" ->
      App.healthStatus st ≠ JStr "unhealthy" ->
      App.healthStatusText st = "Unknown"
      /\ App.healthStatusClass st = "bg-yellow-500")
  /\ (App.healthStatus st = JStr "healthy" ->
      App.healthStatusText st = "Healthy"
      /\ App.healthStatusClass st = "bg-green-500")
  /\ (App.healthStatus st = JStr "unhealthy" ->
      App.healthStatusText st = "Unhealthy"
      /\ App.healthStatusClass st = "bg-red-500")
  /\ App.awsConnectionText st
     = (if truthy (App.awsConnection st) then "Connected" else "Disconnected")
  /\ App.awsConnectionClass st
     = (if truthy (App.awsConnection st) then "text-green-600" else "text-red-600").
Proof.
  rewrite healthStatusText_cases, healthStatusClass_cases.
  unfold App.awsConnectionText, App.awsConnectionClass.
  destruct (App.healthStatus st) as [| | | | s |];
    try (repeat split; (done || by destruct (truthy _))).
  destruct (String.eqb_spec s "healthy") as [-> | Hh].
  { repeat split; try done; try (by destruct (truthy _)).
    all: by intros [? ?]. }
  destruct (String.eqb_spec s "unhealthy") as [-> | Hu].
  { repeat split; try done; try (by destruct (truthy _)).
    all: by intros [? ?]. }
  repeat split; try done; try (by destruct (truthy _));
    intros; congruence.
Qed.

(** A status in capitals is neither of the two strings. *)
Lemma health_indicator_exact_witness :
  App.healthStatusText
    (App.checkHealth (fun _ => "now") JNull App.initial
       (Resolved (JObj [("status", JStr "HEALTHY"); ("aws_connection", JBool true)])))
  = "Unknown"
  /\ App.healthStatusClass
       (App.checkHealth (fun _ => "now") JNull App.initial
          (Resolved (JObj [("status", JStr "HEALTHY"); ("aws_connection", JBool true)])))
     = "bg-yellow-500".
Proof.
  apply health_indicator_exact; discriminate.
Defined.

(** X17: The health indicator keeps no history: after two checks the state
    is the one the second check alone would have produced, so one
    successful check is enough to recover from any number of failed
    ones; no check leaves the loading flag on or touches the modal. *)
Theorem health_latest_check_wins (toLocaleString : jsval -> string)
    (now1 now2 : jsval) (st : App.state) (first second : settled) :
  App.checkHealth toLocaleString now2
    (App.checkHealth toLocaleString now1 st first) second
  = App.checkHealth toLocaleString now2 st second
  /\ App.healthLoading (App.checkHealth toLocaleString now1 st first) = false
  /\ App.showHealthModal (App.checkHealth toLocaleString now1 st first)
     = App.showHealthModal st.
Proof.
  assert (Hmodal : forall now r,
            App.showHealthModal (App.checkHealth toLocaleString now st r)
            = App.showHealthModal st
            /\ App.healthLoading (App.checkHealth toLocaleString now st r) = false).
  { intros now [h | err]; [| done].
    rewrite checkHealth_resolved. by destruct (nullish h). }
  split; [| split; apply Hmodal].
  destruct (Hmodal now1 first) as [Hm _].
  destruct second as [h | err].
  - rewrite !checkHealth_resolved. unfold App.healthFailed. by rewrite Hm.
  - simpl. unfold App.healthFailed. by rewrite Hm.
Qed.

End HealthDisplay.

Section Refresh.

Import RecList.

Lemma refresh_rejected (err : jsval) (st : state) :
  refreshRecommendations (FetchFailed err) st
  = if nullish err
    then (mkState (recommendations st) false JNull (statusFilter st)
            (categoryFilter st) (implementationFilter st)
            (implementationSummary st), true)
    else (mkState (recommendations st) false
            (js_or (opt_member (opt_member (get_prop err "response") "data") "detail")
                   (JStr "Failed to load recommendations"))
            (statusFilter st) (categoryFilter st) (implementationFilter st)
            (implementationSummary st), false).
Proof.
  unfold refreshRecommendations, loadError, member. by destruct (nullish err).
Qed.

(** X18: A refresh that fails with an error object, or whose response has no
    body, changes nothing but the error and the loading flag: the
    recommendations that were listed, and with them the total savings,
    the three filters and the summary are kept; the error stored is the
    detail of the server when that is truthy and else the text Failed to
    load recommendations, hence always truthy, so that the page shows
    the error pane instead of the list that is still held. *)
Theorem refresh_failure_keeps_list (err : jsval) (st : state) :
  nullish err = false ->
  let st' := fst (refreshRecommendations (FetchFailed err) st) in
  let detail := opt_member (opt_member (get_prop err "response") "data") "detail" in
  snd (refreshRecommendations (FetchFailed err) st) = false
  /\ recommendations st' = recommendations st
  /\ totalSavings st' = totalSavings st
  /\ implementationSummary st' = implementationSummary st
  /\ filteredRecommendations st' = filteredRecommendations st
  /\ truthy (error st') = true
  /\ shownPane st' = ErrorState
  /\ (detail = JUndefined -> error st' = JStr "Failed to load recommendations")
  /\ refreshRecommendations (Fetched None) st
     = (mkState (recommendations st) false (JStr "Failed to load recommendations")
          (statusFilter st) (categoryFilter st) (implementationFilter st)
          (implementationSummary st), false)
  /\ st'
     = mkState (recommendations st) false
         (if truthy detail then detail else JStr "Failed to load recommendations")
         (statusFilter st) (categoryFilter st) (implementationFilter st)
         (implementationSummary st)
  /\ statusFilter st' = statusFilter st
  /\ categoryFilter st' = categoryFilter st
  /\ implementationFilter st' = implementationFilter st
  /\ loading st' = false.
Proof.
  intros Herr. cbn zeta. rewrite refresh_rejected, Herr. simpl.
  assert (Ht : truthy (js_or (opt_member (opt_member (get_prop err "response") "data")
                                         "detail")
                             (JStr "Failed to load recommendations")) = true).
  { by apply truthy_js_or_string. }
  repeat split; try done.
  - unfold shownPane. simpl. by rewrite Ht.
  - by intros ->.
Qed.

(** The server answers 503 with a detail of its own. *)
Lemma refresh_failure_keeps_list_witness :
  fst (refreshRecommendations
         (FetchFailed
            (JObj [("response",
                    JObj [("data", JObj [("detail", JStr "AWS is unreachable")])])]))
         (setFilters "warning" "" "auto" Scenario.listed))
  = mkState (recommendations Scenario.listed) false (JStr "AWS is unreachable")
      "warning" "" "auto" [].
Proof.
  apply (refresh_failure_keeps_list
           (JObj [("response",
                   JObj [("data", JObj [("detail", JStr "AWS is unreachable")])])])
           (setFilters "warning" "" "auto" Scenario.listed)).
  reflexivity.
Defined.

(** X19: A refresh that succeeds replaces the whole list by the one the
    server sent, so the statuses rewritten by earlier completion events
    are gone, and clears an earlier error; the summary of recent
    implementations and the filters survive it.  The page then shows
    the grid, or the empty pane when no recommendation passes the
    filters, never the spinner or the error pane. *)
Theorem refresh_success_replaces_list (recs : list recommendation)
    (results : list Card.completed) (st : state) :
  let before := replay results st in
  let st' := fst (refreshRecommendations (Fetched (Some recs)) before) in
  snd (refreshRecommendations (Fetched (Some recs)) before) = false
  /\ recommendations st' = recs
  /\ error st' = JNull
  /\ loading st' = false
  /\ implementationSummary st' = implementationSummary before
  /\ statusFilter st' = statusFilter st
  /\ categoryFilter st' = categoryFilter st
  /\ implementationFilter st' = implementationFilter st
  /\ totalSavings st' = sumOfSavings recs
  /\ shownPane st'
     = (if Nat.eqb (length (filteredRecommendations st')) 0
        then EmptyState else Grid).
Proof.
  cbn zeta.
  assert (Hfilters : statusFilter (replay results st) = statusFilter st
                     /\ categoryFilter (replay results st) = categoryFilter st
                     /\ implementationFilter (replay results st)
                        = implementationFilter st).
  { revert st. induction results as [| r rest IH]; intros st; [done |].
    change (replay (r :: rest) st)
      with (replay rest (handleImplementationCompleted r st)).
    destruct (IH (handleImplementationCompleted r st)) as (H1 & H2 & H3).
    by rewrite H1, H2, H3. }
  destruct Hfilters as (H1 & H2 & H3).
  simpl. rewrite H1, H2, H3. repeat split.
  unfold totalSavings. simpl. by rewrite reduce_from.
Qed.

(** X20: However the request ends, an escaped exception included, a refresh
    leaves the loading flag off, the filters and the summary as they
    were; an exception escapes only when the request was rejected with
    null or undefined. *)
Theorem refresh_always_settles (reply : fetched) (st : state) :
  let st' := fst (refreshRecommendations reply st) in
  loading st' = false
  /\ statusFilter st' = statusFilter st
  /\ categoryFilter st' = categoryFilter st
  /\ implementationFilter st' = implementationFilter st
  /\ implementationSummary st' = implementationSummary st
  /\ shownPane st' ≠ Spinner
  /\ (snd (refreshRecommendations reply st) = true
      <-> exists err, reply = FetchFailed err /\ nullish err = true).
Proof.
  cbn zeta. destruct reply as [[recs |] | err].
  - simpl. repeat split; try done.
    + unfold shownPane. simpl. by destruct (Nat.eqb _ _).
    + by intros (? & ? & ?).
  - simpl. repeat split; try done. by intros (? & ? & ?).
  - rewrite refresh_rejected. destruct (nullish err) eqn:Herr; simpl.
    + repeat split; try done.
      * unfold shownPane. simpl. by destruct (Nat.eqb _ _).
      * intros _. by exists err.
    + repeat split; try done.
      * unfold shownPane. simpl. by repeat case_match.
      * intros (err' & Heq & Hn). injection Heq as <-. congruence.
Qed.

End Refresh.
